(** * PumpSwapBundler: a shallow embedding of [src/bundler.ts]

    The class [PumpSwapBundler] keeps an array of references to
    [VersionedTransaction] objects.  [sendBundle] mutates those objects in
    place, so the embedding has an explicit store of transaction objects
    (the same object may sit in the array more than once), an error
    channel for thrown exceptions, and a trace of the awaited network
    calls.

    JavaScript [number]s that the class compares or forwards are integers
    in [Z]; [tipAmount] (a decimal such as 0.0001) is a rational.  The
    store is total: every reference denotes some transaction object.  Calls
    run one at a time, each to its end, as the class is meant to be used.

    Collaborators that live outside [bundler.ts] ([compileToV0Message] of
    web3.js, the [Bundle] constructor, [connection.getLatestBlockhash] and
    the relay's [sendBundle]) are fields of a record [Externals]: each may
    throw, and the network calls thread an abstract [World].  They are
    assumed not to write to the transaction objects they are handed.

    Two facts about web3.js shape what the class can do.  The builders of
    [ComputeBudgetProgram] throw on a value that does not fit the u32 or
    u64 they encode.  And [compileToV0Message] expects
    [TransactionInstruction]s: it throws on an entry taken from
    [message.compiledInstructions], which has no [programId], and that is
    what [addComputeBudgetInstructions] hands it after the two instructions
    it builds whenever the transaction already has an instruction. *)

From Stdlib Require Import ZArith QArith List String Bool Lia Arith.
Import ListNotations.

#[local] Open Scope Z_scope.
#[local] Open Scope string_scope.
#[local] Open Scope list_scope.

(** ** Data of @solana/web3.js, as far as the class touches it *)

Definition PublicKey := string.
Definition Blockhash := string.
Definition Bytes := list Z.

Record Keypair := { publicKey : PublicKey; secretKey : Bytes }.

(** What an instruction array may hold at run time: the two instructions
    built by [ComputeBudgetProgram], or an entry of
    [message.compiledInstructions]. *)
Inductive Instruction :=
| SetComputeUnitLimit (units : Z)
| SetComputeUnitPrice (microLamports : Z)
| CompiledInstruction (programIdIndex : Z) (accountKeyIndexes : list Z)
                      (data : Bytes).

Record MessageV0 := {
  staticAccountKeys : list PublicKey;
  recentBlockhash : Blockhash;
  compiledInstructions : list Instruction
}.

(** Argument of [new TransactionMessage({...})]; [payerKey] is
    [staticAccountKeys[0]], which is [undefined] on an empty array. *)
Record TransactionMessage := {
  payerKey : option PublicKey;
  tm_recentBlockhash : Blockhash;
  instructions : list Instruction
}.

Record VersionedTransaction := {
  signatures : list Bytes;
  message : MessageV0
}.

Record BlockhashWithExpiryBlockHeight := {
  blockhash : Blockhash;
  lastValidBlockHeight : Z
}.

(** ** The store of transaction objects *)

Definition TxRef := nat.
Definition Heap := TxRef -> VersionedTransaction.

Definition upd (h : Heap) (r : TxRef) (v : VersionedTransaction) : Heap :=
  fun r' => if Nat.eqb r' r then v else h r'.

(** ** Errors and outcomes *)

Definition ExtError := string.

Inductive Error :=
| BundleCannotExceed (maxTransactions : Z)
    (* new Error(`Bundle cannot exceed ${maxTransactions} transactions`) *)
| NoTransactionsToBundle
    (* new Error('No transactions to bundle') *)
| Thrown (e : ExtError).
    (* whatever a collaborator threw, passed on as it is *)

(** [ComputeBudgetProgram.setComputeUnitLimit({units})] encodes [units] as
    a u32 and [setComputeUnitPrice({microLamports})] encodes its argument
    as a u64; each throws on a value that does not fit. *)
Definition setComputeUnitLimit (units : Z) : ExtError + Instruction :=
  if ((0 <=? units) && (units <? 4294967296))%Z
  then inr (SetComputeUnitLimit units)
  else inl "RangeError: units is out of range for a u32".

Definition setComputeUnitPrice (microLamports : Z) : ExtError + Instruction :=
  if ((0 <=? microLamports) && (microLamports <? 18446744073709551616))%Z
  then inr (SetComputeUnitPrice microLamports)
  else inl "RangeError: microLamports is out of range for a u64".

(** ** Configuration and collaborators *)

Record BundleConfig := {
  maxTransactions : Z;
  tipAmount : Q;
  computeUnits : Z;
  computeUnitPrice : Z
}.

Record Externals (World : Type) := {
  compileToV0Message : TransactionMessage -> ExtError + MessageV0;
  Bundle_new : list VersionedTransaction -> Z -> option ExtError;
  getLatestBlockhash :
    World -> (ExtError + BlockhashWithExpiryBlockHeight) * World;
  jito_sendBundle :
    bool -> Blockhash -> option VersionedTransaction -> PublicKey ->
    Keypair -> World -> (ExtError + string) * World
}.

Arguments compileToV0Message {World} _ _.
Arguments Bundle_new {World} _ _ _.
Arguments getLatestBlockhash {World} _ _.
Arguments jito_sendBundle {World} _ _ _ _ _ _ _.

(** The awaited calls, with what they were given and what came back.  The
    transaction argument of the relay call is the reference that was
    passed ([None] for [undefined]). *)
Inductive Event :=
| EvGetLatestBlockhash (r : ExtError + BlockhashWithExpiryBlockHeight)
| EvSendBundle (isSell : bool) (bh : Blockhash) (tx : option TxRef)
               (poolId : PublicKey) (signer : Keypair)
               (r : ExtError + string).

(** ** State and the monad of the methods *)

Record State (World : Type) := {
  heap : Heap;
  transactions : list TxRef;   (* this.transactions *)
  world : World
}.

Arguments heap {World} _ _.
Arguments transactions {World} _.
Arguments world {World} _.
Arguments Build_State {World} _ _ _.

Record Outcome (World A : Type) := {
  result : Error + A;
  final : State World;
  trace : list Event
}.

Arguments result {World A} _.
Arguments final {World A} _.
Arguments trace {World A} _.
Arguments Build_Outcome {World A} _ _ _.

Definition M (World A : Type) := State World -> Outcome World A.

Section Monad.
Context {World : Type}.

Definition ret {A} (a : A) : M World A :=
  fun s => {| result := inr a; final := s; trace := [] |}.

Definition throw {A} (e : Error) : M World A :=
  fun s => {| result := inl e; final := s; trace := [] |}.

Definition bind {A B} (m : M World A) (f : A -> M World B) : M World B :=
  fun s =>
    let o := m s in
    match result o with
    | inl e => {| result := inl e; final := final o; trace := trace o |}
    | inr a =>
        let o' := f a (final o) in
        {| result := result o'; final := final o';
           trace := trace o ++ trace o' |}
    end.

Definition get : M World (State World) :=
  fun s => {| result := inr s; final := s; trace := [] |}.

Definition put (s : State World) : M World unit :=
  fun _ => {| result := inr tt; final := s; trace := [] |}.
End Monad.

Declare Scope bundler_scope.
Delimit Scope bundler_scope with bundler.
Notation "x <- m ;; k" := (bind m (fun x => k))
  (at level 61, m at next level, right associativity) : bundler_scope.
Notation "m ;;; k" := (bind m (fun _ => k))
  (at level 61, right associativity) : bundler_scope.
#[local] Open Scope bundler_scope.

(** ** The class *)

Section PumpSwapBundler.
Context {World : Type}.
Variable ext : Externals World.
Variable config : BundleConfig.

Definition set_transactions (txs : list TxRef) : M World unit :=
  s <- get ;;
  put {| heap := heap s; transactions := txs; world := world s |}.

Definition set_message (tx : TxRef) (m : MessageV0) : M World unit :=
  s <- get ;;
  put {| heap := upd (heap s) tx
                   {| signatures := signatures (heap s tx); message := m |};
         transactions := transactions s;
         world := world s |}.

(** [new PumpSwapBundler(config)]: the array starts empty. *)
Definition new_PumpSwapBundler (h : Heap) (w : World) : State World :=
  {| heap := h; transactions := []; world := w |}.

Definition addTransaction (transaction : TxRef) : M World unit :=
  s <- get ;;
  if Z.of_nat (List.length (transactions s)) >=? maxTransactions config
  then throw (BundleCannotExceed (maxTransactions config))
  else set_transactions (transactions s ++ [transaction]).

Definition computeBudgetIx : list Instruction :=
  [ SetComputeUnitLimit (computeUnits config);
    SetComputeUnitPrice (computeUnitPrice config) ].

(** The array literal of lines 44-51: the limit is built first, then the
    price; a builder that throws ends the call.  When both return, the
    array is [computeBudgetIx]. *)
Definition new_computeBudgetIx : ExtError + list Instruction :=
  match setComputeUnitLimit (computeUnits config) with
  | inl e => inl e
  | inr limit =>
      match setComputeUnitPrice (computeUnitPrice config) with
      | inl e => inl e
      | inr price => inr [limit; price]
      end
  end.

Definition addComputeBudgetInstructions (transaction : TxRef)
  : M World unit :=
  match new_computeBudgetIx with
  | inl e => throw (Thrown e)
  | inr built =>
      s <- get ;;
      let msg := message (heap s transaction) in
      match compileToV0Message ext
              {| payerKey := nth_error (staticAccountKeys msg) 0;
                 tm_recentBlockhash := recentBlockhash msg;
                 instructions := built ++ compiledInstructions msg |}
      with
      | inl e => throw (Thrown e)
      | inr messageV0 => set_message transaction messageV0
      end
  end.

Fixpoint forEach (l : list TxRef) (f : TxRef -> M World unit)
  : M World unit :=
  match l with
  | [] => ret tt
  | tx :: l' => f tx ;;; forEach l' f
  end.

Definition new_Bundle (txs : list TxRef) (limit : Z) : M World unit :=
  s <- get ;;
  match Bundle_new ext (map (heap s) txs) limit with
  | Some e => throw (Thrown e)
  | None => ret tt
  end.

Definition await_getLatestBlockhash
  : M World BlockhashWithExpiryBlockHeight :=
  fun s =>
    let (r, w) := getLatestBlockhash ext (world s) in
    {| result := match r with inl e => inl (Thrown e) | inr b => inr b end;
       final := {| heap := heap s; transactions := transactions s;
                   world := w |};
       trace := [EvGetLatestBlockhash r] |}.

Definition await_sendBundle (isSell : bool) (bh : Blockhash)
    (tx : option TxRef) (poolId : PublicKey) (signer : Keypair)
  : M World string :=
  fun s =>
    let (r, w) :=
      jito_sendBundle ext isSell bh (option_map (heap s) tx) poolId signer
                      (world s) in
    {| result := match r with inl e => inl (Thrown e) | inr u => inr u end;
       final := {| heap := heap s; transactions := transactions s;
                   world := w |};
       trace := [EvSendBundle isSell bh tx poolId signer r] |}.

Definition sendBundle (poolId : PublicKey) (signer : Keypair)
  : M World string :=
  s <- get ;;
  if Nat.eqb (List.length (transactions s)) 0
  then throw NoTransactionsToBundle
  else
    forEach (transactions s) addComputeBudgetInstructions ;;;
    new_Bundle (transactions s) (maxTransactions config) ;;;
    latestBlockhash <- await_getLatestBlockhash ;;
    s' <- get ;;
    uuid <- await_sendBundle false (blockhash latestBlockhash)
              (nth_error (transactions s') 0) poolId signer ;;
    set_transactions [] ;;;
    ret uuid.

Definition getSize : M World Z :=
  s <- get ;; ret (Z.of_nat (List.length (transactions s))).

Definition clear : M World unit := set_transactions [].

(** *** Calls from a client, one after the other *)

Inductive Op :=
| Append (transaction : TxRef)
| Submit (poolId : PublicKey) (signer : Keypair)
| Size
| Reset.

Inductive Value :=
| VUndefined
| VString (u : string)
| VNumber (n : Z).

Definition exec (op : Op) : M World Value :=
  match op with
  | Append tx => addTransaction tx ;;; ret VUndefined
  | Submit poolId signer => u <- sendBundle poolId signer ;; ret (VString u)
  | Size => n <- getSize ;; ret (VNumber n)
  | Reset => clear ;;; ret VUndefined
  end.

(** A thrown error ends the call, not the client: the next call runs on
    the state the failed one left behind. *)
Fixpoint run (ops : list Op) (s : State World)
  : list (Error + Value) * State World * list Event :=
  match ops with
  | [] => ([], s, [])
  | op :: ops' =>
      let o := exec op s in
      let '(rs, s', evs) := run ops' (final o) in
      (result o :: rs, s', trace o ++ evs)
  end.
End PumpSwapBundler.

Arguments addTransaction {World} config transaction _.
Arguments getSize {World} _.
Arguments clear {World} _.
Arguments addComputeBudgetInstructions : simpl never.

(** ** Test doubles for the collaborators *)

Module Mock.

(** The world of the doubles counts the network round trips made so far. *)
Definition World := nat.

(** A compiler that behaves as the library's on the lists the class hands
    it.  It throws when the payer is [undefined].  It throws when the list
    goes on after its second entry: the class puts there the entries of
    [message.compiledInstructions], which have no [programId].  Otherwise
    it puts the payer first, then the program of the instructions, keeps
    the block hash and lists the instructions in the order given. *)
Definition compile (tm : TransactionMessage) : ExtError + MessageV0 :=
  match payerKey tm with
  | None => inl "payer is undefined"
  | Some p =>
      match skipn 2 (instructions tm) with
      | _ :: _ => inl "TypeError: instruction has no programId"
      | [] =>
          inr {| staticAccountKeys :=
                   [p; "ComputeBudget111111111111111111111111111111"];
                 recentBlockhash := tm_recentBlockhash tm;
                 compiledInstructions := instructions tm |}
      end
  end.

Definition latest (w : World)
  : (ExtError + BlockhashWithExpiryBlockHeight) * World :=
  (inr {| blockhash := String (Ascii.ascii_of_nat (65 + w)) "-hash";
          lastValidBlockHeight := Z.of_nat w |}, S w).

Definition relay_up : Externals World :=
  {| compileToV0Message := compile;
     Bundle_new := fun _ _ => None;
     getLatestBlockhash := latest;
     jito_sendBundle := fun _ _ _ _ _ w => (inr "bundle-uuid", S w) |}.

Definition relay_down : Externals World :=
  {| compileToV0Message := compile;
     Bundle_new := fun _ _ => None;
     getLatestBlockhash := latest;
     jito_sendBundle := fun _ _ _ _ _ w => (inl "relay rejected", S w) |}.

Definition config : BundleConfig :=
  {| maxTransactions := 4; tipAmount := 1 # 10000;
     computeUnits := 300000; computeUnitPrice := 696969 |}.

Definition swap : Instruction := CompiledInstruction 2 [0; 1] [102; 6].

(** Every address holds a transaction paid by "payer" that has no
    instruction yet. *)
Definition tx0 : VersionedTransaction :=
  {| signatures := [[7; 7]];
     message := {| staticAccountKeys := ["payer"; "pool"];
                   recentBlockhash := "old-hash";
                   compiledInstructions := [] |} |}.

(** A transaction paid by "payer" that has one instruction. *)
Definition swap_tx : VersionedTransaction :=
  {| signatures := [[8; 8]];
     message := {| staticAccountKeys := ["payer"; "pool"];
                   recentBlockhash := "old-hash";
                   compiledInstructions := [swap] |} |}.

Definition heap0 : Heap := fun _ => tx0.

Definition signer : Keypair := {| publicKey := "payer"; secretKey := [1; 2] |}.

Definition st (txs : list TxRef) : State World :=
  {| heap := heap0; transactions := txs; world := 0%nat |}.

(** A submission the relay takes, and one it refuses. *)
Definition accepted (txs : list TxRef) : Outcome World string :=
  sendBundle relay_up config "pool" signer (st txs).

Definition refused (txs : list TxRef) : Outcome World string :=
  sendBundle relay_down config "pool" signer (st txs).

End Mock.

(** ** Vocabulary of the properties *)

(** The instruction list of the transaction object at [r]. *)
Definition ixs {World} (s : State World) (r : TxRef) : list Instruction :=
  compiledInstructions (message (heap s r)).

(** The fee payer of the transaction object at [r]. *)
Definition feePayer {World} (s : State World) (r : TxRef)
  : option PublicKey :=
  nth_error (staticAccountKeys (message (heap s r))) 0.

(** [k] pairs of compute-budget instructions, one pair after the other. *)
Fixpoint prepended (config : BundleConfig) (k : nat) : list Instruction :=
  match k with
  | O => []
  | S k' => computeBudgetIx config ++ prepended config k'
  end.

(** What the class relies on when it recompiles a message: the compiled
    message lists the instructions it was given, in that order, keeps the
    block hash, and has the payer as its first account key. *)
Definition compile_contract {World} (ext : Externals World) : Prop :=
  forall tm m,
    compileToV0Message ext tm = inr m ->
    compiledInstructions m = instructions tm /\
    recentBlockhash m = tm_recentBlockhash tm /\
    nth_error (staticAccountKeys m) 0 = payerKey tm.

(** The loop of [sendBundle] that enriches the buffered transactions. *)
Definition enrich {World} (ext : Externals World) (config : BundleConfig)
  : M World unit :=
  s <- get ;; forEach (transactions s) (addComputeBudgetInstructions ext config).

(** The relay calls among the events of a method call. *)
Definition relay_calls (evs : list Event) : list Event :=
  filter (fun ev => match ev with EvSendBundle _ _ _ _ _ _ => true
                             | _ => false end) evs.

(** The failure the relay answered with, when the last event of a call is a
    relay call that failed. *)
Definition relay_failure {World A} (o : Outcome World A) : option ExtError :=
  match rev (trace o) with
  | EvSendBundle _ _ _ _ _ (inl e) :: _ => Some e
  | _ => None
  end.

(** [n] calls of [sendBundle] in a row. *)
Fixpoint resubmit {World} (ext : Externals World) (config : BundleConfig)
    (poolId : PublicKey) (signer : Keypair) (n : nat) (s : State World)
  : State World :=
  match n with
  | O => s
  | S n' =>
      resubmit ext config poolId signer n'
        (final (sendBundle ext config poolId signer s))
  end.

(** The library's compiler on the lists the class hands it: entries after
    the second come from [message.compiledInstructions], and the compiler
    throws on them. *)
Definition rejects_message_entries {World} (ext : Externals World) : Prop :=
  forall tm,
    skipn 2 (instructions tm) <> [] ->
    exists e, compileToV0Message ext tm = inl e.

(** What the relay answers to the call [sendBundle] makes from [s]: the
    first buffered transaction as the loop left it, the hash [b] just
    fetched, and the world right after that fetch. *)
Definition relay_answer {World} (ext : Externals World)
    (config : BundleConfig) (poolId : PublicKey) (signer : Keypair)
    (s : State World) (b : BlockhashWithExpiryBlockHeight)
  : ExtError + string :=
  fst (jito_sendBundle ext false (blockhash b)
         (option_map (heap (final (enrich ext config s)))
                     (nth_error (transactions s) 0))
         poolId signer (snd (getLatestBlockhash ext (world s)))).

(** The buffer respects the configured capacity. *)
Definition within_capacity {World} (config : BundleConfig) (s : State World)
  : Prop :=
  Z.of_nat (List.length (transactions s)) <= maxTransactions config.

(** The [sendBundle] calls among a client's calls. *)
Fixpoint count_submits (ops : list Op) : nat :=
  match ops with
  | [] => O
  | Submit _ _ :: ops' => S (count_submits ops')
  | _ :: ops' => count_submits ops'
  end.

(** What a client sees when it appends [n] transactions to an array with
    room for [room] of them. *)
Definition append_results (config : BundleConfig) (room n : nat)
  : list (Error + Value) :=
  repeat (inr VUndefined) (Nat.min room n)
  ++ repeat (inl (BundleCannotExceed (maxTransactions config)))
       (n - Nat.min room n).

(** ** Test doubles that fail before the relay is reached *)

Module Faulty.

(** A transaction without account keys: its fee payer is [undefined], and
    the compiler of the doubles throws on it. *)
Definition no_payer : VersionedTransaction :=
  {| signatures := [[9]];
     message := {| staticAccountKeys := [];
                   recentBlockhash := "old-hash";
                   compiledInstructions := [Mock.swap] |} |}.

(** The store of [Mock], except that address 1 holds [no_payer]. *)
Definition heap1 : Heap := upd Mock.heap0 1%nat no_payer.

Definition st (txs : list TxRef) : State Mock.World :=
  {| heap := heap1; transactions := txs; world := 0%nat |}.

Definition bundle_rejects : Externals Mock.World :=
  {| compileToV0Message := Mock.compile;
     Bundle_new := fun _ _ => Some "bundle refused";
     getLatestBlockhash := Mock.latest;
     jito_sendBundle := fun _ _ _ _ _ w => (inr "bundle-uuid", S w) |}.

Definition rpc_down : Externals Mock.World :=
  {| compileToV0Message := Mock.compile;
     Bundle_new := fun _ _ => None;
     getLatestBlockhash := fun w => (inl "rpc unreachable", S w);
     jito_sendBundle := fun _ _ _ _ _ w => (inr "bundle-uuid", S w) |}.

(** The store of [Mock], except that address 0 holds [Mock.swap_tx]. *)
Definition heap2 : Heap := upd Mock.heap0 0%nat Mock.swap_tx.

Definition st2 (txs : list TxRef) : State Mock.World :=
  {| heap := heap2; transactions := txs; world := 0%nat |}.

Definition no_room : BundleConfig :=
  {| maxTransactions := 0; tipAmount := 1 # 10000;
     computeUnits := 300000; computeUnitPrice := 696969 |}.

End Faulty.

(** * Properties *)

(** ** Stepping through the monad *)

Lemma new_computeBudgetIx_ok config built :
  new_computeBudgetIx config = inr built -> built = computeBudgetIx config.
Proof.
  unfold new_computeBudgetIx, setComputeUnitLimit, setComputeUnitPrice,
    computeBudgetIx.
  destruct ((0 <=? computeUnits config)
            && (computeUnits config <? 4294967296))%Z; [|discriminate].
  destruct ((0 <=? computeUnitPrice config)
            && (computeUnitPrice config <? 18446744073709551616))%Z;
    [|discriminate].
  intro H; injection H as <-. reflexivity.
Qed.

Lemma upd_same (h : Heap) r v : upd h r v r = v.
Proof. unfold upd. now rewrite Nat.eqb_refl. Qed.

Lemma upd_other (h : Heap) r r' v : r' <> r -> upd h r v r' = h r'.
Proof.
  intro Hne. unfold upd.
  destruct (Nat.eqb r' r) eqn:E; [apply Nat.eqb_eq in E; contradiction | easy].
Qed.

Lemma prepended_add config a b :
  prepended config (a + b) = prepended config a ++ prepended config b.
Proof.
  induction a as [|a IH]; simpl; [reflexivity|].
  now rewrite IH.
Qed.

Lemma prepended_length config k :
  List.length (prepended config k) = (2 * k)%nat.
Proof. induction k as [|k IH]; simpl in *; lia. Qed.

Section Enrichment.
Context {World : Type}.
Variable ext : Externals World.
Variable config : BundleConfig.

#[local] Abbreviation addCBI := (addComputeBudgetInstructions ext config).

(** One call of [addComputeBudgetInstructions] touches neither the array,
    nor the world, nor any signature, and makes no network call. *)
Lemma addCBI_frame tx (s : State World) :
  transactions (final (addCBI tx s)) = transactions s /\
  world (final (addCBI tx s)) = world s /\
  trace (addCBI tx s) = [] /\
  (forall r, signatures (heap (final (addCBI tx s)) r)
             = signatures (heap s r)) /\
  (forall r, r <> tx -> heap (final (addCBI tx s)) r = heap s r).
Proof.
  unfold addComputeBudgetInstructions.
  destruct (new_computeBudgetIx config) as [e|built];
    [repeat split; reflexivity|].
  unfold bind, get; simpl.
  destruct (compileToV0Message ext _) as [e|m]; simpl.
  - repeat split; reflexivity.
  - repeat split; try reflexivity.
    + intro r. unfold upd. destruct (Nat.eqb r tx) eqn:E; [|reflexivity].
      apply Nat.eqb_eq in E. now subst.
    + intros r Hr. now apply upd_other.
Qed.

(** When the compiler keeps its contract, a call that returns has put the
    pair in front of the instructions of [tx] and kept payer and hash. *)
Lemma addCBI_ok tx (s : State World) :
  compile_contract ext ->
  result (addCBI tx s) = inr tt ->
  ixs (final (addCBI tx s)) tx = computeBudgetIx config ++ ixs s tx /\
  recentBlockhash (message (heap (final (addCBI tx s)) tx))
    = recentBlockhash (message (heap s tx)) /\
  feePayer (final (addCBI tx s)) tx = feePayer s tx.
Proof.
  intros Hc. unfold ixs, feePayer.
  unfold addComputeBudgetInstructions.
  destruct (new_computeBudgetIx config) as [e|built] eqn:EB;
    [discriminate|].
  apply new_computeBudgetIx_ok in EB. subst built.
  unfold bind, get; simpl.
  destruct (compileToV0Message ext _) as [e|m] eqn:E; simpl; [discriminate|].
  intros _. rewrite upd_same; simpl.
  destruct (Hc _ _ E) as (H1 & H2 & H3). simpl in *. auto.
Qed.

Lemma forEach_frame txs : forall s : State World,
  transactions (final (forEach txs addCBI s)) = transactions s /\
  world (final (forEach txs addCBI s)) = world s /\
  trace (forEach txs addCBI s) = [] /\
  (forall r, signatures (heap (final (forEach txs addCBI s)) r)
             = signatures (heap s r)) /\
  (forall r, ~ In r txs -> heap (final (forEach txs addCBI s)) r = heap s r).
Proof.
  induction txs as [|tx txs IH]; intro s; cbn [forEach].
  - repeat split; reflexivity.
  - unfold bind.
    pose proof (addCBI_frame tx s) as (F1 & F2 & F3 & F4 & F5).
    destruct (addCBI tx s) as [[e|[]] s1 t1]; cbn [result final trace] in *.
    + repeat split; auto. intros r Hr. apply F5. intro; subst; cbn in Hr; tauto.
    + pose proof (IH s1) as (G1 & G2 & G3 & G4 & G5).
      destruct (forEach txs addCBI s1) as [r2 s2 t2];
        cbn [result final trace] in *.
      subst t1 t2. repeat split.
      * congruence.
      * congruence.
      * intro r. now rewrite G4.
      * intros r Hr. cbn in Hr. rewrite G5 by tauto.
        apply F5. intro; subst; tauto.
Qed.

(** A loop that returns has put one pair in front of each transaction
    object for every time the object occurs in the array. *)
Lemma forEach_ok txs : forall s : State World,
  compile_contract ext ->
  result (forEach txs addCBI s) = inr tt ->
  forall r,
    ixs (final (forEach txs addCBI s)) r
      = prepended config (count_occ Nat.eq_dec txs r) ++ ixs s r /\
    recentBlockhash (message (heap (final (forEach txs addCBI s)) r))
      = recentBlockhash (message (heap s r)) /\
    feePayer (final (forEach txs addCBI s)) r = feePayer s r.
Proof.
  induction txs as [|tx txs IH]; intros s Hc Hok r; cbn [forEach] in *.
  - cbn. auto.
  - unfold bind in *.
    pose proof (addCBI_ok tx s Hc) as A.
    pose proof (addCBI_frame tx s) as (_ & _ & _ & _ & F5).
    destruct (addCBI tx s) as [[e|[]] s1 t1]; cbn [result final trace] in *;
      [discriminate|].
    specialize (IH s1 Hc).
    destruct (forEach txs addCBI s1) as [[e|[]] s2 t2];
      cbn [result final trace] in *; [discriminate|].
    destruct (IH eq_refl r) as (I1 & I2 & I3).
    rewrite I1, I2, I3.
    cbn [count_occ].
    destruct (Nat.eq_dec tx r) as [->|Hne].
    + destruct (A eq_refl) as (A1 & A2 & A3).
      rewrite A1, A2, A3. repeat split.
      replace (S (count_occ Nat.eq_dec txs r))
        with (count_occ Nat.eq_dec txs r + 1)%nat by lia.
      rewrite prepended_add. cbn [prepended]. rewrite app_nil_r.
      now rewrite <- app_assoc.
    + unfold ixs, feePayer. rewrite (F5 r) by congruence. auto.
Qed.

(** *** The shape of a [sendBundle] call on a non-empty array

    [s1] is the state the enriching loop leaves; every later step keeps its
    store.  The call ends in one of five ways. *)
Lemma sendBundle_cases poolId signer (s : State World) :
  transactions s <> [] ->
  let o := sendBundle ext config poolId signer s in
  let l := enrich ext config s in
  heap (final o) = heap (final l) /\
  ((exists e, result l = inl e /\ result o = inl e /\ trace o = [] /\
              final o = final l) \/
   (result l = inr tt /\
    exists e, Bundle_new ext (map (heap (final l)) (transactions s))
                (maxTransactions config) = Some e /\
              result o = inl (Thrown e) /\ trace o = [] /\
              final o = final l) \/
   (result l = inr tt /\
    exists e, fst (getLatestBlockhash ext (world s)) = inl e /\
              result o = inl (Thrown e) /\
              trace o = [EvGetLatestBlockhash (inl e)] /\
              transactions (final o) = transactions s) \/
   (result l = inr tt /\
    exists b e, fst (getLatestBlockhash ext (world s)) = inr b /\
                relay_answer ext config poolId signer s b = inl e /\
                result o = inl (Thrown e) /\
                trace o = [EvGetLatestBlockhash (inr b);
                           EvSendBundle false (blockhash b)
                             (nth_error (transactions s) 0) poolId signer
                             (inl e)] /\
                transactions (final o) = transactions s) \/
   (result l = inr tt /\
    exists b u, fst (getLatestBlockhash ext (world s)) = inr b /\
                relay_answer ext config poolId signer s b = inr u /\
                result o = inr u /\
                trace o = [EvGetLatestBlockhash (inr b);
                           EvSendBundle false (blockhash b)
                             (nth_error (transactions s) 0) poolId signer
                             (inr u)] /\
                transactions (final o) = [])).
Proof.
  intros Hne. unfold relay_answer, sendBundle, enrich, bind, get.
  cbn [result final trace].
  destruct (transactions s) as [|r0 rest] eqn:Etx; [congruence|].
  cbn [List.length Nat.eqb].
  pose proof (forEach_frame (r0 :: rest) s) as (F1 & F2 & F3 & _).
  destruct (forEach (r0 :: rest) addCBI s) as [[e|[]] s1 t1];
    cbn [result final trace] in *; subst t1.
  { split; [reflexivity|]. left. exists e. auto. }
  unfold new_Bundle, bind, get. cbn [result final trace].
  destruct (Bundle_new ext (map (heap s1) (r0 :: rest))
              (maxTransactions config)) as [e|] eqn:EB;
    cbn [result final trace throw ret].
  { split; [reflexivity|]. right; left. split; [reflexivity|].
    exists e. auto. }
  unfold await_getLatestBlockhash. rewrite F2.
  destruct (getLatestBlockhash ext (world s)) as [[e|b] w1];
    cbn [result final trace fst snd].
  { split; [reflexivity|]. right; right; left. split; [reflexivity|].
    exists e. rewrite <- Etx. auto. }
  unfold await_sendBundle. cbn [heap transactions world].
  rewrite F1, Etx. cbn [nth_error option_map heap].
  destruct (jito_sendBundle ext false (blockhash b) _ poolId signer w1)
    as [[e|u] w2] eqn:EJ; cbn [result final trace app fst].
  { split; [reflexivity|]. right; right; right; left.
    split; [reflexivity|]. exists b, e. rewrite EJ. auto. }
  split; [reflexivity|]. right; right; right; right.
  split; [reflexivity|]. exists b, u. rewrite EJ. auto.
Qed.

End Enrichment.

Section Submit.
Context {World : Type}.
Variable ext : Externals World.
Variable config : BundleConfig.

Lemma enrich_unfold (s : State World) :
  result (enrich ext config s)
    = result (forEach (transactions s)
                (addComputeBudgetInstructions ext config) s) /\
  final (enrich ext config s)
    = final (forEach (transactions s)
               (addComputeBudgetInstructions ext config) s) /\
  trace (enrich ext config s)
    = trace (forEach (transactions s)
               (addComputeBudgetInstructions ext config) s).
Proof.
  unfold enrich, bind, get; cbn [result final trace].
  destruct (forEach (transactions s)
              (addComputeBudgetInstructions ext config) s) as [[e|[]] s1 t1];
    cbn [result final trace app]; auto.
Qed.

Lemma enrich_frame (s : State World) :
  transactions (final (enrich ext config s)) = transactions s /\
  world (final (enrich ext config s)) = world s /\
  (forall r, signatures (heap (final (enrich ext config s)) r)
             = signatures (heap s r)).
Proof.
  destruct (forEach_frame ext config (transactions s) s)
    as (F1 & F2 & _ & F4 & _).
  destruct (enrich_unfold s) as (_ & -> & _). auto.
Qed.

Lemma enrich_ok (s : State World) :
  compile_contract ext ->
  result (enrich ext config s) = inr tt ->
  forall r,
    ixs (final (enrich ext config s)) r
      = prepended config (count_occ Nat.eq_dec (transactions s) r)
          ++ ixs s r /\
    recentBlockhash (message (heap (final (enrich ext config s)) r))
      = recentBlockhash (message (heap s r)) /\
    feePayer (final (enrich ext config s)) r = feePayer s r.
Proof.
  intros Hc.
  destruct (enrich_unfold s) as (-> & -> & _).
  apply forEach_ok; assumption.
Qed.

Lemma sendBundle_empty poolId signer (s : State World) :
  transactions s = [] ->
  sendBundle ext config poolId signer s
  = {| result := inl NoTransactionsToBundle; final := s; trace := [] |}.
Proof.
  intro E. unfold sendBundle, bind, get; cbn [result final trace].
  rewrite E. reflexivity.
Qed.

Lemma sendBundle_signatures poolId signer (s : State World) r :
  signatures (heap (final (sendBundle ext config poolId signer s)) r)
  = signatures (heap s r).
Proof.
  destruct (transactions s) as [|r0 rest] eqn:E.
  - now rewrite sendBundle_empty.
  - assert (Hne : transactions s <> []) by congruence.
    destruct (sendBundle_cases ext config poolId signer s Hne) as [Hh _].
    rewrite Hh. apply enrich_frame.
Qed.

Lemma sendBundle_buffer poolId signer (s : State World) :
  transactions (final (sendBundle ext config poolId signer s))
    = transactions s \/
  transactions (final (sendBundle ext config poolId signer s)) = [].
Proof.
  destruct (transactions s) as [|r0 rest] eqn:E.
  - rewrite sendBundle_empty by assumption. now left.
  - assert (Hne : transactions s <> []) by congruence.
    destruct (enrich_frame s) as (F1 & _).
    rewrite <- E.
    destruct (sendBundle_cases ext config poolId signer s Hne)
      as [_ [(e & _ & _ & _ & Hf) | [(_ & e & _ & _ & _ & Hf)
         | [(_ & e & _ & _ & _ & Hf) | [(_ & b & e & _ & _ & _ & _ & Hf)
         | (_ & b & u & _ & _ & _ & _ & Hf)]]]]].
    + left. now rewrite Hf.
    + left. now rewrite Hf.
    + now left.
    + now left.
    + now right.
Qed.

(** A call whose last event is a refused relay call went through the whole
    loop, kept the array, and throws what the relay answered. *)
Lemma relay_failure_inv poolId signer (s : State World) e :
  relay_failure (sendBundle ext config poolId signer s) = Some e ->
  result (enrich ext config s) = inr tt /\
  result (sendBundle ext config poolId signer s) = inl (Thrown e) /\
  transactions (final (sendBundle ext config poolId signer s))
    = transactions s /\
  heap (final (sendBundle ext config poolId signer s))
    = heap (final (enrich ext config s)) /\
  exists b,
    fst (getLatestBlockhash ext (world s)) = inr b /\
    relay_answer ext config poolId signer s b = inl e /\
    trace (sendBundle ext config poolId signer s)
      = [EvGetLatestBlockhash (inr b);
         EvSendBundle false (blockhash b) (nth_error (transactions s) 0)
           poolId signer (inl e)].
Proof.
  unfold relay_failure.
  destruct (transactions s) as [|r0 rest] eqn:E.
  - rewrite sendBundle_empty by assumption. discriminate.
  - assert (Hne : transactions s <> []) by congruence.
    rewrite <- E.
    destruct (sendBundle_cases ext config poolId signer s Hne)
      as [Hh [(e' & _ & _ & Ht & _) | [(_ & e' & _ & _ & Ht & _)
         | [(_ & e' & _ & _ & Ht & _) | [(Hl & b & e' & Hb & Ha & Hr & Ht & Hf)
         | (_ & b & u & _ & _ & _ & Ht & _)]]]]];
      rewrite Ht; cbn [rev app]; try discriminate.
    intro H; injection H as <-.
    repeat split; auto. exists b. auto.
Qed.

(** ** Submit *)

(** C1. A [sendBundle] call on a non-empty array makes at most one relay
    call.  When it makes one, the call carries the direction flag [false],
    the hash returned by the [getLatestBlockhash] call of this very
    [sendBundle], the reference of the first buffered transaction and of no
    other, the pool and the signer.  The call is made whenever no earlier
    step of [sendBundle] throws. *)
Theorem submit_relays_first_transaction
    poolId signer (s : State World) r0 rest :
  transactions s = r0 :: rest ->
  let o := sendBundle ext config poolId signer s in
  let l := enrich ext config s in
  (relay_calls (trace o) = [] \/
   exists b a,
     fst (getLatestBlockhash ext (world s)) = inr b /\
     relay_answer ext config poolId signer s b = a /\
     trace o = [EvGetLatestBlockhash (inr b);
                EvSendBundle false (blockhash b) (Some r0) poolId signer a])
  /\
  (forall b,
     result l = inr tt ->
     Bundle_new ext (map (heap (final l)) (transactions s))
       (maxTransactions config) = None ->
     fst (getLatestBlockhash ext (world s)) = inr b ->
     relay_calls (trace o)
     = [EvSendBundle false (blockhash b) (Some r0) poolId signer
          (relay_answer ext config poolId signer s b)]).
Proof.
  intros E o l.
  assert (Hne : transactions s <> []) by congruence.
  assert (H0 : nth_error (transactions s) 0 = Some r0) by now rewrite E.
  destruct (sendBundle_cases ext config poolId signer s Hne)
    as [_ [(e & Hl & _ & Ht & _) | [(Hl & e & HB & _ & Ht & _)
       | [(Hl & e & Hb & _ & Ht & _) | [(Hl & b & e & Hb & Ha & _ & Ht & _)
       | (Hl & b & u & Hb & Ha & _ & Ht & _)]]]]];
    fold o in Ht; fold l in Hl; rewrite ?H0 in Ht.
  - split; [left; now rewrite Ht|]. intros b Hl'. congruence.
  - split; [left; now rewrite Ht|]. intros b _ HB'.
    fold l in HB. congruence.
  - split; [left; now rewrite Ht|]. intros b _ _ Hb'. congruence.
  - split.
    + right. exists b, (inl e). auto.
    + intros b' _ _ Hb'. rewrite Ht. cbn [relay_calls filter].
      assert (b' = b) by congruence. subst b'. now rewrite Ha.
  - split.
    + right. exists b, (inr u). auto.
    + intros b' _ _ Hb'. rewrite Ht. cbn [relay_calls filter].
      assert (b' = b) by congruence. subst b'. now rewrite Ha.
Qed.

(** C5. [sendBundle] on an array of size 0 throws
    [NoTransactionsToBundle]: the state is the one before the call and no
    network call is made. *)
Theorem submit_on_empty_buffer poolId signer (s : State World) :
  result (getSize s) = inr 0 ->
  sendBundle ext config poolId signer s
  = {| result := inl NoTransactionsToBundle; final := s; trace := [] |}.
Proof.
  unfold getSize, bind, get, ret; cbn [result final trace].
  intro H. apply sendBundle_empty.
  destruct (transactions s); [reflexivity|].
  injection H as H. cbn [List.length] in H. lia.
Qed.

(** C6. A [sendBundle] call that returns leaves the array empty, so that
    [getSize] gives 0, and the string it returns is the one the relay
    answered to the single relay call made. *)
Theorem successful_submit_clears_buffer poolId signer (s : State World) u :
  let o := sendBundle ext config poolId signer s in
  result o = inr u ->
  transactions (final o) = [] /\
  result (getSize (final o)) = inr 0 /\
  final (getSize (final o)) = final o /\
  exists b,
    fst (getLatestBlockhash ext (world s)) = inr b /\
    relay_answer ext config poolId signer s b = inr u /\
    trace o = [EvGetLatestBlockhash (inr b);
               EvSendBundle false (blockhash b)
                 (nth_error (transactions s) 0) poolId signer (inr u)].
Proof.
  intros o Hu.
  destruct (transactions s) as [|r0 rest] eqn:E.
  { unfold o in Hu. rewrite sendBundle_empty in Hu by assumption.
    discriminate. }
  assert (Hne : transactions s <> []) by congruence.
  rewrite <- E.
  destruct (sendBundle_cases ext config poolId signer s Hne)
    as [_ [(e & _ & Hr & _) | [(_ & e & _ & Hr & _)
       | [(_ & e & _ & Hr & _) | [(_ & b & e & _ & _ & Hr & _)
       | (_ & b & u' & Hb & Ha & Hr & Ht & Hf)]]]]];
    fold o in Hr; try congruence.
  fold o in Ht, Hf.
  assert (u' = u) by congruence. subst u'.
  repeat split; auto.
  - unfold getSize, bind, get, ret; cbn [result final trace].
    now rewrite Hf.
  - exists b. auto.
Qed.

End Submit.

Section Accumulator.
Context {World : Type}.
Variable ext : Externals World.
Variable config : BundleConfig.

Lemma exec_Submit poolId signer (s : State World) :
  final (exec ext config (Submit poolId signer) s)
    = final (sendBundle ext config poolId signer s) /\
  trace (exec ext config (Submit poolId signer) s)
    = trace (sendBundle ext config poolId signer s).
Proof.
  unfold exec, bind.
  destruct (sendBundle ext config poolId signer s) as [[e|u] s1 t1];
    cbn [result final trace ret]; auto using app_nil_r.
Qed.

Lemma addTransaction_full tx (s : State World) :
  Z.of_nat (List.length (transactions s)) >= maxTransactions config ->
  addTransaction config tx s
  = {| result := inl (BundleCannotExceed (maxTransactions config));
       final := s; trace := [] |}.
Proof.
  intro H. unfold addTransaction, bind, get; cbn [result final trace].
  destruct (Z.geb_spec (Z.of_nat (List.length (transactions s)))
              (maxTransactions config)); [reflexivity | lia].
Qed.

Lemma addTransaction_room tx (s : State World) :
  Z.of_nat (List.length (transactions s)) < maxTransactions config ->
  addTransaction config tx s
  = {| result := inr tt;
       final := {| heap := heap s; transactions := transactions s ++ [tx];
                   world := world s |};
       trace := [] |}.
Proof.
  intro H. unfold addTransaction, bind, get; cbn [result final trace].
  destruct (Z.geb_spec (Z.of_nat (List.length (transactions s)))
              (maxTransactions config)); [lia | reflexivity].
Qed.

Lemma exec_within_capacity op (s : State World) :
  within_capacity config s ->
  within_capacity config (final (exec ext config op s)).
Proof.
  unfold within_capacity. intro H.
  destruct op as [tx | poolId signer | | ].
  - unfold exec, bind.
    destruct (Z_lt_ge_dec (Z.of_nat (List.length (transactions s)))
                (maxTransactions config)) as [Hlt|Hge].
    + rewrite addTransaction_room by assumption.
      cbn [result final trace ret transactions].
      rewrite length_app. cbn [List.length]. lia.
    + rewrite addTransaction_full by assumption. exact H.
  - destruct (exec_Submit poolId signer s) as [-> _].
    destruct (sendBundle_buffer ext config poolId signer s) as [-> | ->];
      [exact H | cbn [List.length]; lia].
  - exact H.
  - cbn. lia.
Qed.

Lemma run_within_capacity ops : forall s : State World,
  within_capacity config s ->
  within_capacity config (snd (fst (run ext config ops s))).
Proof.
  induction ops as [|op ops IH]; intros s H; cbn [run].
  - exact H.
  - specialize (IH _ (exec_within_capacity op s H)).
    destruct (run ext config ops (final (exec ext config op s)))
      as [[rs s'] evs]. exact IH.
Qed.

Lemma run_appends txs : forall s : State World,
  Z.of_nat (List.length (transactions s) + List.length txs)
    <= maxTransactions config ->
  run ext config (map Append txs) s
  = (map (fun _ => inr VUndefined) txs,
     {| heap := heap s; transactions := transactions s ++ txs;
        world := world s |},
     []).
Proof.
  induction txs as [|tx txs IH]; intros s H; cbn [map run].
  - rewrite app_nil_r. now destruct s.
  - cbn [List.length] in H. unfold exec, bind.
    rewrite addTransaction_room by lia.
    cbn [result final trace ret].
    rewrite IH; cbn [transactions heap world].
    + now rewrite <- app_assoc.
    + rewrite length_app. cbn [List.length]. lia.
Qed.

(** ** Capacity and size *)

(** C3. Under the data model's positivity of the capacity (here only
    [0 <= maxTransactions]), every state reached from the constructor by
    [addTransaction], [sendBundle], [getSize] and [clear] calls has at most
    [maxTransactions] buffered transactions; [addTransaction] on an array
    of that length or more throws [BundleCannotExceed] and leaves the state
    as it was; every operation keeps the bound. *)
Theorem capacity_never_exceeded :
  0 <= maxTransactions config ->
  (forall h w ops,
     within_capacity config
       (snd (fst (run ext config ops (new_PumpSwapBundler h w))))) /\
  (forall tx (s : State World),
     Z.of_nat (List.length (transactions s)) >= maxTransactions config ->
     addTransaction config tx s
     = {| result := inl (BundleCannotExceed (maxTransactions config));
          final := s; trace := [] |}) /\
  (forall op (s : State World),
     within_capacity config s ->
     within_capacity config (final (exec ext config op s))).
Proof.
  intro H0. repeat split.
  - intros h w ops. apply run_within_capacity.
    unfold within_capacity, new_PumpSwapBundler. cbn. exact H0.
  - intros tx s. apply addTransaction_full.
  - intros op s. apply exec_within_capacity.
Qed.

(** C7. Starting from the empty array of a new accumulator, a sequence of
    [addTransaction] calls no longer than the capacity goes through without
    a throw, after which [getSize] returns the number of calls made;
    [getSize] leaves every state as it found it and makes no network
    call. *)
Theorem size_counts_appends h w txs :
  Z.of_nat (List.length txs) <= maxTransactions config ->
  let r := run ext config (map Append txs) (new_PumpSwapBundler h w) in
  fst (fst r) = map (fun _ => inr VUndefined) txs /\
  transactions (snd (fst r)) = txs /\
  result (getSize (snd (fst r))) = inr (Z.of_nat (List.length txs)) /\
  (forall s : State World, final (getSize s) = s /\ trace (getSize s) = []).
Proof.
  intro H. rewrite run_appends by exact H.
  cbn [new_PumpSwapBundler transactions heap world app].
  repeat split; reflexivity.
Qed.

(** ** What the operations leave alone *)

(** C8. No operation writes to the signatures of a transaction object,
    buffered or not: [sendBundle] replaces the message only. *)
Theorem signatures_never_modified op (s : State World) r :
  signatures (heap (final (exec ext config op s)) r) = signatures (heap s r).
Proof.
  destruct op as [tx | poolId signer | | ].
  - unfold exec, bind.
    destruct (Z_lt_ge_dec (Z.of_nat (List.length (transactions s)))
                (maxTransactions config)) as [Hlt|Hge].
    + now rewrite addTransaction_room by assumption.
    + now rewrite addTransaction_full by assumption.
  - destruct (exec_Submit poolId signer s) as [-> _].
    apply sendBundle_signatures.
  - reflexivity.
  - reflexivity.
Qed.

End Accumulator.

(** C9. Two configurations that differ at most in [tipAmount] give the same
    results, the same final state and the same network calls on every
    sequence of operations from every state: no operation reads
    [tipAmount]. *)
Theorem tipAmount_never_read {World} (ext : Externals World)
    (m : Z) (t1 t2 : Q) (cu cup : Z) (ops : list Op) (s : State World) :
  run ext {| maxTransactions := m; tipAmount := t1;
             computeUnits := cu; computeUnitPrice := cup |} ops s
  = run ext {| maxTransactions := m; tipAmount := t2;
               computeUnits := cu; computeUnitPrice := cup |} ops s.
Proof.
  revert s. induction ops as [|op ops IH]; intro s; cbn [run].
  - reflexivity.
  - assert (E : exec ext {| maxTransactions := m; tipAmount := t1;
                            computeUnits := cu; computeUnitPrice := cup |}
                  op s
                = exec ext {| maxTransactions := m; tipAmount := t2;
                              computeUnits := cu; computeUnitPrice := cup |}
                    op s).
    { destruct op; reflexivity. }
    rewrite E, IH. reflexivity.
Qed.

Section Enriched.
Context {World : Type}.
Variable ext : Externals World.
Variable config : BundleConfig.

Lemma rejected_submit poolId signer (s : State World) :
  compile_contract ext ->
  relay_failure (sendBundle ext config poolId signer s) <> None ->
  transactions (final (sendBundle ext config poolId signer s))
    = transactions s /\
  forall r,
    ixs (final (sendBundle ext config poolId signer s)) r
      = prepended config (count_occ Nat.eq_dec (transactions s) r)
          ++ ixs s r.
Proof.
  intros Hc Hf.
  destruct (relay_failure (sendBundle ext config poolId signer s))
    as [e|] eqn:E; [|congruence].
  destruct (relay_failure_inv ext config poolId signer s e E)
    as (Hl & _ & Ht & Hh & _).
  split; [exact Ht|]. intro r.
  unfold ixs. rewrite Hh. apply (enrich_ok ext config s Hc Hl r).
Qed.

(** *** A compiler that throws on the entries of a message *)

#[local] Abbreviation addCBI0 := (addComputeBudgetInstructions ext config).

(** Such a compiler lets [addComputeBudgetInstructions] return only on a
    transaction that has no instruction yet. *)
Lemma addCBI_returns_fresh tx (s : State World) :
  rejects_message_entries ext ->
  result (addCBI0 tx s) = inr tt ->
  ixs s tx = [].
Proof.
  intros Hrej. unfold ixs, addComputeBudgetInstructions.
  destruct (new_computeBudgetIx config) as [e|built] eqn:EB;
    [discriminate|].
  apply new_computeBudgetIx_ok in EB. subst built.
  unfold bind, get; cbn [result final trace].
  destruct (compiledInstructions (message (heap s tx))) as [|i l] eqn:Ei;
    [reflexivity|].
  destruct (Hrej {| payerKey :=
                      nth_error (staticAccountKeys (message (heap s tx))) 0;
                    tm_recentBlockhash :=
                      recentBlockhash (message (heap s tx));
                    instructions := computeBudgetIx config ++ i :: l |})
    as [e He]; [discriminate|].
  rewrite He. discriminate.
Qed.

(** On a transaction that has an instruction the call throws and writes
    nothing. *)
Lemma addCBI_rejected tx (s : State World) :
  rejects_message_entries ext ->
  ixs s tx <> [] ->
  (exists e, result (addCBI0 tx s) = inl (Thrown e)) /\
  final (addCBI0 tx s) = s /\
  trace (addCBI0 tx s) = [].
Proof.
  intros Hrej Hix.
  pose proof (addCBI_returns_fresh tx s Hrej) as Hfresh.
  destruct (addCBI_frame ext config tx s) as (_ & _ & Ht & _).
  split; [|split; [|exact Ht]].
  - destruct (result (addCBI0 tx s)) as [err|[]] eqn:E.
    + revert E. unfold addComputeBudgetInstructions.
      destruct (new_computeBudgetIx config) as [e|built].
      { cbn. intro H; injection H as <-. now exists e. }
      unfold bind, get; cbn [result final trace].
      destruct (compileToV0Message ext _) as [e|m]; cbn; [|discriminate].
      intro H; injection H as <-. now exists e.
    + exfalso. apply Hix. now apply Hfresh.
  - destruct (result (addCBI0 tx s)) as [err|[]] eqn:E;
      [|exfalso; apply Hix; now apply Hfresh].
    revert E. unfold addComputeBudgetInstructions.
    destruct (new_computeBudgetIx config) as [e|built]; [reflexivity|].
    unfold bind, get; cbn [result final trace].
    destruct (compileToV0Message ext _) as [e|m]; cbn; [reflexivity|].
    discriminate.
Qed.

(** With such a compiler that also keeps its contract, the loop returns
    only when every transaction in the array had no instruction and sits
    there once. *)
Lemma loop_returns_on_fresh_only txs : forall s : State World,
  compile_contract ext ->
  rejects_message_entries ext ->
  result (forEach txs addCBI0 s) = inr tt ->
  forall r, In r txs ->
    ixs s r = [] /\ count_occ Nat.eq_dec txs r = 1%nat.
Proof.
  induction txs as [|tx txs IH]; intros s Hc Hrej Hok r Hin;
    cbn [forEach] in *; [contradiction|].
  unfold bind in Hok.
  pose proof (addCBI_returns_fresh tx s Hrej) as Hfresh.
  pose proof (addCBI_ok ext config tx s Hc) as Hadd.
  pose proof (addCBI_frame ext config tx s) as (_ & _ & _ & _ & F5).
  destruct (addCBI0 tx s) as [[e|[]] s1 t1]; cbn [result final trace] in *;
    [discriminate|].
  specialize (IH s1 Hc Hrej).
  destruct (forEach txs addCBI0 s1) as [[e|[]] s2 t2];
    cbn [result final trace] in *; [discriminate|].
  specialize (IH eq_refl).
  destruct (Hadd eq_refl) as (A1 & _).
  rewrite (Hfresh eq_refl), app_nil_r in A1.
  assert (Hnot : ~ In tx txs).
  { intro H. destruct (IH tx H) as [H1 _]. rewrite A1 in H1. discriminate. }
  cbn [count_occ].
  destruct (Nat.eq_dec tx r) as [->|Hne].
  - split; [now apply Hfresh|].
    f_equal. now apply count_occ_not_In.
  - destruct Hin as [->|Hin]; [congruence|].
    destruct (IH r Hin) as [H1 H2]. split; [|exact H2].
    unfold ixs in *. rewrite <- (F5 r) by congruence. exact H1.
Qed.

(** A [sendBundle] the relay refused went through the loop: every buffered
    transaction had no instruction and now has the two built ones. *)
Lemma rejected_submit_fresh poolId signer (s : State World) :
  compile_contract ext ->
  rejects_message_entries ext ->
  relay_failure (sendBundle ext config poolId signer s) <> None ->
  forall r, In r (transactions s) ->
    ixs s r = [] /\
    ixs (final (sendBundle ext config poolId signer s)) r
    = computeBudgetIx config.
Proof.
  intros Hc Hrej Hf r Hin.
  destruct (rejected_submit poolId signer s Hc Hf) as [_ Hi].
  destruct (relay_failure (sendBundle ext config poolId signer s))
    as [e|] eqn:E; [|congruence].
  destruct (relay_failure_inv ext config poolId signer s e E) as (Hl & _).
  destruct (enrich_unfold ext config s) as (U1 & _).
  rewrite U1 in Hl.
  destruct (loop_returns_on_fresh_only (transactions s) s Hc Hrej Hl r Hin)
    as [H1 H2].
  split; [exact H1|].
  rewrite Hi, H1, H2. cbn [prepended]. now rewrite !app_nil_r.
Qed.

(** ** Enrichment *)

(** C4, where the code departs from it.  [addComputeBudgetInstructions]
    hands the compiler the entries of [message.compiledInstructions] after
    the two instructions it builds.  With a compiler that throws on such
    entries, as the library's does, a [sendBundle] whose first buffered
    transaction has an instruction throws inside the loop: nothing is put
    in front of any instruction list, no network call is made and the state
    is the one before the call. *)
Theorem submit_throws_on_buffered_instruction
    poolId signer (s : State World) r0 rest :
  rejects_message_entries ext ->
  transactions s = r0 :: rest ->
  ixs s r0 <> [] ->
  let o := sendBundle ext config poolId signer s in
  (exists e, result o = inl (Thrown e)) /\
  trace o = [] /\
  final o = s.
Proof.
  intros Hrej E Hix o.
  assert (Hne : transactions s <> []) by congruence.
  destruct (addCBI_rejected r0 s Hrej Hix) as ((e & Hr) & Hfin & _).
  destruct (enrich_unfold ext config s) as (U1 & U2 & _).
  rewrite E in U1, U2. cbn [forEach] in U1, U2. unfold bind in U1, U2.
  rewrite Hr in U1, U2. cbn [result final] in U1, U2.
  destruct (sendBundle_cases ext config poolId signer s Hne)
    as [_ [(e' & Hl & Hro & Hto & Hfo) | [(Hl & _) | [(Hl & _) | [(Hl & _)
       | (Hl & _)]]]]]; try congruence.
  fold o in Hro, Hto, Hfo.
  assert (e' = Thrown e) by congruence. subst e'.
  split; [now exists e|]. split; [exact Hto|].
  rewrite Hfo, U2. exact Hfin.
Qed.

(** ** Failure of the relay *)

(** C2, amended.  When the relay call of a [sendBundle] throws, [sendBundle]
    throws that same value after that single relay call; the array holds
    the same references in the same order and no signature has changed.
    The transaction objects are not restored: with a compiler that keeps
    its contract, the instruction list of every buffered transaction
    differs from the one before the call, and with a compiler that also
    throws on the entries of a message, every buffered transaction had no
    instruction and now has the two compute-budget instructions. *)
Theorem relay_failure_propagates poolId signer (s : State World) e :
  let o := sendBundle ext config poolId signer s in
  relay_failure o = Some e ->
  result o = inl (Thrown e) /\
  List.length (relay_calls (trace o)) = 1%nat /\
  transactions (final o) = transactions s /\
  (forall r, signatures (heap (final o) r) = signatures (heap s r)) /\
  (compile_contract ext ->
   forall r, In r (transactions s) -> ixs (final o) r <> ixs s r) /\
  (compile_contract ext ->
   rejects_message_entries ext ->
   forall r, In r (transactions s) ->
     ixs s r = [] /\
     ixs (final o) r
     = [SetComputeUnitLimit (computeUnits config);
        SetComputeUnitPrice (computeUnitPrice config)]).
Proof.
  intros o E.
  destruct (relay_failure_inv ext config poolId signer s e E)
    as (Hl & Hr & Ht & Hh & b & _ & _ & Htr).
  fold o in Hr, Ht, Hh, Htr.
  assert (Hf : relay_failure (sendBundle ext config poolId signer s) <> None)
    by (fold o; congruence).
  split; [exact Hr|]. split; [now rewrite Htr|]. split; [exact Ht|].
  split; [intro r; apply sendBundle_signatures|]. split.
  - intros Hc r Hin Heq.
    destruct (rejected_submit poolId signer s Hc Hf) as [_ Hi].
    fold o in Hi. rewrite Hi in Heq.
    apply (f_equal (@List.length _)) in Heq.
    rewrite length_app, prepended_length in Heq.
    assert (count_occ Nat.eq_dec (transactions s) r > 0)%nat
      by now apply count_occ_In.
    lia.
  - intros Hc Hrej r Hin.
    exact (rejected_submit_fresh poolId signer s Hc Hrej Hf r Hin).
Qed.

(** C10, amended.  With a compiler that keeps its contract and throws on
    the entries of a message, a [sendBundle] the relay refused leaves the
    array as it was and every buffered transaction, which had no
    instruction, with exactly the two compute-budget instructions; nothing
    has put the former instruction list back, so the next call starts from
    a store that differs from the one before. *)
Theorem failed_submit_keeps_enrichment poolId signer (s : State World) :
  compile_contract ext ->
  rejects_message_entries ext ->
  relay_failure (sendBundle ext config poolId signer s) <> None ->
  let s1 := final (sendBundle ext config poolId signer s) in
  transactions s1 = transactions s /\
  forall r, In r (transactions s) ->
    ixs s r = [] /\
    ixs s1 r = [SetComputeUnitLimit (computeUnits config);
                SetComputeUnitPrice (computeUnitPrice config)] /\
    heap s1 r <> heap s r.
Proof.
  intros Hc Hrej Hf s1.
  destruct (rejected_submit poolId signer s Hc Hf) as [Ht _].
  split; [exact Ht|].
  intros r Hin.
  destruct (rejected_submit_fresh poolId signer s Hc Hrej Hf r Hin)
    as [H1 H2].
  fold s1 in H2.
  split; [exact H1|]. split; [exact H2|].
  intro Heq. unfold ixs in H1, H2. rewrite Heq, H1 in H2. discriminate.
Qed.

End Enriched.

(** ** The properties on the test doubles *)

Lemma mock_compile_contract_up : compile_contract Mock.relay_up.
Proof.
  intros tm m. cbn. unfold Mock.compile.
  destruct (payerKey tm) as [p|]; [|discriminate].
  destruct (skipn 2 (instructions tm)); [|discriminate].
  intro H; injection H as <-. cbn. auto.
Qed.

Lemma mock_compile_contract_down : compile_contract Mock.relay_down.
Proof.
  intros tm m. cbn. unfold Mock.compile.
  destruct (payerKey tm) as [p|]; [|discriminate].
  destruct (skipn 2 (instructions tm)); [|discriminate].
  intro H; injection H as <-. cbn. auto.
Qed.

Lemma submit_relays_first_transaction_witness :
  transactions (Mock.st [0; 1]%nat) = [0; 1]%nat /\
  relay_calls (trace (Mock.accepted [0; 1]%nat))
  = [EvSendBundle false "A-hash" (Some 0%nat) "pool" Mock.signer
       (inr "bundle-uuid")].
Proof.
  split; [reflexivity|].
  exact (proj2 (submit_relays_first_transaction Mock.relay_up Mock.config
                  "pool" Mock.signer (Mock.st [0; 1]%nat) 0%nat [1%nat]
                  eq_refl)
           {| blockhash := "A-hash"; lastValidBlockHeight := 0 |}
           eq_refl eq_refl eq_refl).
Defined.

Lemma submit_on_empty_buffer_witness :
  result (getSize (Mock.st [])) = inr 0 /\
  Mock.accepted []
  = {| result := inl NoTransactionsToBundle; final := Mock.st [];
       trace := [] |}.
Proof.
  split; [reflexivity|].
  apply (submit_on_empty_buffer Mock.relay_up Mock.config "pool" Mock.signer
           (Mock.st [])).
  reflexivity.
Defined.

Lemma successful_submit_clears_buffer_witness :
  result (Mock.accepted [0; 1]%nat) = inr "bundle-uuid" /\
  transactions (final (Mock.accepted [0; 1]%nat)) = [] /\
  result (getSize (final (Mock.accepted [0; 1]%nat))) = inr 0.
Proof.
  split; [reflexivity|].
  destruct (successful_submit_clears_buffer Mock.relay_up Mock.config
              "pool" Mock.signer (Mock.st [0; 1]%nat) "bundle-uuid" eq_refl)
    as (H1 & H2 & _).
  exact (conj H1 H2).
Defined.

Lemma capacity_never_exceeded_witness :
  0 <= maxTransactions Mock.config /\
  within_capacity Mock.config
    (snd (fst (run Mock.relay_up Mock.config
                 [Append 0; Append 1; Append 2; Append 3; Append 4;
                  Submit "pool" Mock.signer; Append 5]%nat
                 (new_PumpSwapBundler Mock.heap0 0%nat)))).
Proof.
  assert (H : 0 <= maxTransactions Mock.config) by (cbn; lia).
  split; [exact H|].
  apply (proj1 (capacity_never_exceeded Mock.relay_up Mock.config H)).
Defined.

Lemma size_counts_appends_witness :
  Z.of_nat (List.length [0; 1; 2]%nat) <= maxTransactions Mock.config /\
  result (getSize
            (snd (fst (run Mock.relay_up Mock.config
                         (map Append [0; 1; 2]%nat)
                         (new_PumpSwapBundler Mock.heap0 0%nat)))))
  = inr 3.
Proof.
  assert (H : Z.of_nat (List.length [0; 1; 2]%nat)
              <= maxTransactions Mock.config) by (cbn; lia).
  split; [exact H|].
  destruct (size_counts_appends Mock.relay_up Mock.config Mock.heap0 0%nat
              [0; 1; 2]%nat H) as (_ & _ & W & _).
  exact W.
Defined.

Lemma mock_rejects_message_entries_up :
  rejects_message_entries Mock.relay_up.
Proof.
  intros tm H. cbn. unfold Mock.compile.
  destruct (payerKey tm) as [p|]; [|eauto].
  destruct (skipn 2 (instructions tm)); [contradiction | eauto].
Qed.

Lemma mock_rejects_message_entries_down :
  rejects_message_entries Mock.relay_down.
Proof.
  intros tm H. cbn. unfold Mock.compile.
  destruct (payerKey tm) as [p|]; [|eauto].
  destruct (skipn 2 (instructions tm)); [contradiction | eauto].
Qed.

Lemma submit_throws_on_buffered_instruction_witness :
  rejects_message_entries Mock.relay_up /\
  transactions (Faulty.st2 [0; 1]%nat) = [0; 1]%nat /\
  ixs (Faulty.st2 [0; 1]%nat) 0%nat <> [] /\
  result (sendBundle Mock.relay_up Mock.config "pool" Mock.signer
            (Faulty.st2 [0; 1]%nat))
  = inl (Thrown "TypeError: instruction has no programId") /\
  trace (sendBundle Mock.relay_up Mock.config "pool" Mock.signer
           (Faulty.st2 [0; 1]%nat)) = [] /\
  final (sendBundle Mock.relay_up Mock.config "pool" Mock.signer
           (Faulty.st2 [0; 1]%nat)) = Faulty.st2 [0; 1]%nat.
Proof.
  assert (Hix : ixs (Faulty.st2 [0; 1]%nat) 0%nat <> []) by discriminate.
  split; [exact mock_rejects_message_entries_up|].
  split; [reflexivity|]. split; [exact Hix|]. split; [reflexivity|].
  destruct (submit_throws_on_buffered_instruction Mock.relay_up Mock.config
              "pool" Mock.signer (Faulty.st2 [0; 1]%nat) 0%nat [1%nat]
              mock_rejects_message_entries_up eq_refl Hix)
    as (_ & H2 & H3).
  exact (conj H2 H3).
Defined.

Lemma relay_failure_propagates_witness :
  relay_failure (Mock.refused [0; 1]%nat) = Some "relay rejected" /\
  result (Mock.refused [0; 1]%nat) = inl (Thrown "relay rejected") /\
  transactions (final (Mock.refused [0; 1]%nat)) = [0; 1]%nat.
Proof.
  split; [reflexivity|].
  destruct (relay_failure_propagates Mock.relay_down Mock.config "pool"
              Mock.signer (Mock.st [0; 1]%nat) "relay rejected" eq_refl)
    as (H1 & _ & H3 & _).
  exact (conj H1 H3).
Defined.

Lemma failed_submit_keeps_enrichment_witness :
  compile_contract Mock.relay_down /\
  rejects_message_entries Mock.relay_down /\
  relay_failure (Mock.refused [0; 1]%nat) <> None /\
  transactions (final (Mock.refused [0; 1]%nat)) = [0; 1]%nat /\
  ixs (final (Mock.refused [0; 1]%nat)) 1%nat
  = [SetComputeUnitLimit 300000; SetComputeUnitPrice 696969].
Proof.
  assert (Hf : relay_failure (Mock.refused [0; 1]%nat) <> None)
    by discriminate.
  assert (Hin : In 1%nat (transactions (Mock.st [0; 1]%nat)))
    by (cbn; auto).
  split; [exact mock_compile_contract_down|].
  split; [exact mock_rejects_message_entries_down|]. split; [exact Hf|].
  destruct (failed_submit_keeps_enrichment Mock.relay_down Mock.config
              "pool" Mock.signer (Mock.st [0; 1]%nat)
              mock_compile_contract_down mock_rejects_message_entries_down
              Hf)
    as (H1 & H2).
  split; [exact H1|]. exact (proj1 (proj2 (H2 1%nat Hin))).
Defined.

(** ** Where the claims as written fail *)

(** C2 as written: after a [sendBundle] whose relay call throws, the
    instruction list of the buffered transaction is not the one before the
    call. *)
Lemma relay_failure_leaves_enrichment :
  In 0%nat (transactions (Mock.st [0%nat])) /\
  relay_failure (Mock.refused [0%nat]) = Some "relay rejected" /\
  result (Mock.refused [0%nat]) = inl (Thrown "relay rejected") /\
  ixs (Mock.st [0%nat]) 0%nat = [] /\
  ixs (final (Mock.refused [0%nat])) 0%nat
  = [SetComputeUnitLimit 300000; SetComputeUnitPrice 696969] /\
  ixs (final (Mock.refused [0%nat])) 0%nat <> ixs (Mock.st [0%nat]) 0%nat.
Proof.
  repeat split; try reflexivity.
  - cbn. auto.
  - discriminate.
Qed.

(** C10 as written: the relay refuses a first [sendBundle]; a second one on
    the same array throws inside the loop, without a relay call, and puts
    nothing further in front: after these two failed calls the buffered
    transaction carries two compute-budget instructions, not [2 * 2]. *)
Lemma second_submit_prepends_nothing :
  In 0%nat (transactions (Mock.st [0%nat])) /\
  relay_failure (Mock.refused [0%nat]) = Some "relay rejected" /\
  result (sendBundle Mock.relay_down Mock.config "pool" Mock.signer
            (final (Mock.refused [0%nat])))
  = inl (Thrown "TypeError: instruction has no programId") /\
  trace (sendBundle Mock.relay_down Mock.config "pool" Mock.signer
           (final (Mock.refused [0%nat]))) = [] /\
  transactions (resubmit Mock.relay_down Mock.config "pool" Mock.signer 2
                  (Mock.st [0%nat])) = [0%nat] /\
  ixs (resubmit Mock.relay_down Mock.config "pool" Mock.signer 2
         (Mock.st [0%nat])) 0%nat
  = [SetComputeUnitLimit 300000; SetComputeUnitPrice 696969] /\
  List.length (ixs (resubmit Mock.relay_down Mock.config "pool" Mock.signer 2
                      (Mock.st [0%nat])) 0%nat) <> (2 * 2)%nat.
Proof.
  repeat split; try reflexivity.
  - cbn. auto.
  - discriminate.
Qed.

(** * Further properties of the class *)

Section Further.
Context {World : Type}.
Variable ext : Externals World.
Variable config : BundleConfig.

#[local] Abbreviation addCBI' := (addComputeBudgetInstructions ext config).

(** A call of [addComputeBudgetInstructions] that throws has written
    nothing, and what it throws is what the compiler threw. *)
Lemma addCBI_throws tx (s : State World) err :
  result (addCBI' tx s) = inl err ->
  final (addCBI' tx s) = s /\ exists e, err = Thrown e.
Proof.
  unfold addComputeBudgetInstructions.
  destruct (new_computeBudgetIx config) as [e|built].
  { cbn. intro H; injection H as <-. split; [reflexivity | now exists e]. }
  unfold bind, get; cbn [result final trace].
  destruct (compileToV0Message ext _) as [e|m]; cbn; [|discriminate].
  intro H; injection H as <-. split; [reflexivity | now exists e].
Qed.

Lemma forEach_stops done tx rest : forall (s : State World) err,
  result (forEach done addCBI' s) = inr tt ->
  result (addCBI' tx (final (forEach done addCBI' s))) = inl err ->
  result (forEach (done ++ tx :: rest) addCBI' s) = inl err /\
  final (forEach (done ++ tx :: rest) addCBI' s)
    = final (forEach done addCBI' s).
Proof.
  induction done as [|d done IH]; intros s err Hd Ht;
    cbn [forEach app] in *.
  - unfold ret in *; cbn [final] in *. unfold bind.
    destruct (addCBI_throws tx s err Ht) as [Hs _].
    destruct (addCBI' tx s) as [[e|[]] s1 t1]; cbn [result final trace] in *;
      [|discriminate].
    split; congruence.
  - unfold bind in *.
    destruct (addCBI' d s) as [[e|[]] s1 t1]; cbn [result final trace] in *;
      [discriminate|].
    specialize (IH s1 err).
    destruct (forEach done addCBI' s1) as [[e|[]] s2 t2];
      cbn [result final trace] in *; [discriminate|].
    destruct (IH eq_refl Ht) as [I1 I2].
    destruct (forEach (done ++ tx :: rest) addCBI' s1) as [[e|[]] s3 t3];
      cbn [result final trace] in *; [|discriminate].
    split; congruence.
Qed.

Lemma sendBundle_trace_bound poolId signer (s : State World) :
  (List.length (trace (sendBundle ext config poolId signer s)) <= 2)%nat /\
  (List.length (relay_calls (trace (sendBundle ext config poolId signer s)))
   <= 1)%nat.
Proof.
  destruct (transactions s) as [|r0 rest] eqn:E.
  - rewrite sendBundle_empty by assumption. cbn. lia.
  - assert (Hne : transactions s <> []) by congruence.
    destruct (sendBundle_cases ext config poolId signer s Hne)
      as [_ [(e & _ & _ & Ht & _) | [(_ & e & _ & _ & Ht & _)
         | [(_ & e & _ & _ & Ht & _) | [(_ & b & e & _ & _ & _ & Ht & _)
         | (_ & b & u & _ & _ & _ & Ht & _)]]]]];
      rewrite Ht; cbn; lia.
Qed.

Lemma exec_Append tx (s : State World) :
  heap (final (exec ext config (Append tx) s)) = heap s /\
  world (final (exec ext config (Append tx) s)) = world s /\
  trace (exec ext config (Append tx) s) = [] /\
  (transactions (final (exec ext config (Append tx) s)) = transactions s \/
   transactions (final (exec ext config (Append tx) s))
     = transactions s ++ [tx]).
Proof.
  unfold exec, bind.
  destruct (Z_lt_ge_dec (Z.of_nat (List.length (transactions s)))
              (maxTransactions config)) as [Hlt|Hge].
  - rewrite addTransaction_room by assumption. cbn. auto.
  - rewrite addTransaction_full by assumption. cbn. auto.
Qed.

(** What [sendBundle] does after a loop that returned, when the [Bundle]
    constructor or the hash fetch throws. *)
Lemma sendBundle_early_failure poolId signer (s : State World) :
  transactions s <> [] ->
  result (enrich ext config s) = inr tt ->
  let o := sendBundle ext config poolId signer s in
  let l := enrich ext config s in
  (forall e,
     Bundle_new ext (map (heap (final l)) (transactions s))
       (maxTransactions config) = Some e ->
     result o = inl (Thrown e) /\ trace o = [] /\ final o = final l) /\
  (forall e,
     Bundle_new ext (map (heap (final l)) (transactions s))
       (maxTransactions config) = None ->
     fst (getLatestBlockhash ext (world s)) = inl e ->
     result o = inl (Thrown e) /\
     trace o = [EvGetLatestBlockhash (inl e)] /\
     final o = {| heap := heap (final l); transactions := transactions s;
                  world := snd (getLatestBlockhash ext (world s)) |}).
Proof.
  intros Hne. unfold sendBundle, enrich, bind, get.
  cbn [result final trace].
  destruct (transactions s) as [|r0 rest] eqn:Etx; [congruence|].
  cbn [List.length Nat.eqb].
  pose proof (forEach_frame ext config (r0 :: rest) s) as (F1 & F2 & F3 & _).
  destruct (forEach (r0 :: rest) addCBI' s) as [[e|[]] s1 t1];
    cbn [result final trace] in *; subst t1; [discriminate|].
  intros _.
  unfold new_Bundle, bind, get. cbn [result final trace].
  destruct (Bundle_new ext (map (heap s1) (r0 :: rest))
              (maxTransactions config)) as [e|] eqn:EB;
    cbn [result final trace throw ret].
  { split; intros e' H; [|discriminate].
    injection H as <-. auto. }
  split; intros e' H; [discriminate|].
  unfold await_getLatestBlockhash. rewrite F2.
  destruct (getLatestBlockhash ext (world s)) as [[e|b] w1];
    cbn [result final trace fst snd]; intro Hb; [|discriminate].
  injection Hb as <-. rewrite F1, Etx. auto.
Qed.

(** ** Failures before the relay is reached *)

(** X1. When the recompilation of a buffered transaction throws,
    [sendBundle] throws that value with no network call made; the array and
    the world are as before, the transaction objects met earlier in the
    array keep the pairs already put in front of their instructions, and no
    other object has changed. *)
Theorem submit_stops_at_first_compile_failure
    poolId signer (s : State World) done tx rest err :
  transactions s = done ++ tx :: rest ->
  result (forEach done addCBI' s) = inr tt ->
  result (addCBI' tx (final (forEach done addCBI' s))) = inl err ->
  let o := sendBundle ext config poolId signer s in
  result o = inl err /\
  (exists e, err = Thrown e) /\
  trace o = [] /\
  transactions (final o) = transactions s /\
  world (final o) = world s /\
  (forall r, ~ In r done -> heap (final o) r = heap s r) /\
  (compile_contract ext ->
   forall r,
     ixs (final o) r
     = prepended config (count_occ Nat.eq_dec done r) ++ ixs s r).
Proof.
  intros E Hd Ht o.
  assert (Hne : transactions s <> []).
  { rewrite E. destruct done; discriminate. }
  destruct (forEach_stops done tx rest s err Hd Ht) as [S1 S2].
  destruct (enrich_unfold ext config s) as (U1 & U2 & _).
  rewrite E in U1, U2. rewrite S1 in U1. rewrite S2 in U2.
  destruct (forEach_frame ext config done s) as (F1 & F2 & _ & _ & F5).
  destruct (sendBundle_cases ext config poolId signer s Hne)
    as [_ [(e & Hl & Hr & Htr & Hf) | [(Hl & _) | [(Hl & _) | [(Hl & _)
       | (Hl & _)]]]]]; try congruence.
  fold o in Hr, Htr, Hf.
  assert (e = err) by congruence. subst e.
  rewrite Hf, U2.
  split; [exact Hr|].
  split; [exact (proj2 (addCBI_throws _ _ _ Ht))|].
  split; [exact Htr|].
  split; [exact F1|]. split; [exact F2|]. split; [exact F5|].
  intros Hc r. apply (forEach_ok ext config done s Hc Hd r).
Qed.

(** X2. When the [Bundle] constructor throws, [sendBundle] throws that
    value before any network call; the array and the world are as before,
    and every buffered transaction keeps the pairs the loop put in front of
    its instructions. *)
Theorem bundle_constructor_failure poolId signer (s : State World) e :
  transactions s <> [] ->
  result (enrich ext config s) = inr tt ->
  Bundle_new ext (map (heap (final (enrich ext config s))) (transactions s))
    (maxTransactions config) = Some e ->
  let o := sendBundle ext config poolId signer s in
  result o = inl (Thrown e) /\
  trace o = [] /\
  transactions (final o) = transactions s /\
  world (final o) = world s /\
  (compile_contract ext ->
   forall r,
     ixs (final o) r
     = prepended config (count_occ Nat.eq_dec (transactions s) r)
         ++ ixs s r).
Proof.
  intros Hne Hl HB o.
  destruct (enrich_frame ext config s) as (F1 & F2 & _).
  destruct (proj1 (sendBundle_early_failure poolId signer s Hne Hl) e HB)
    as (Hr & Ht & Hf).
  fold o in Hr, Ht, Hf. rewrite Hf.
  repeat split; auto.
  intros Hc r. apply (enrich_ok ext config s Hc Hl r).
Qed.

(** X3. When [getLatestBlockhash] throws, [sendBundle] throws that value
    and the relay is never called; the array is as before and every
    buffered transaction keeps the pairs the loop put in front of its
    instructions. *)
Theorem blockhash_failure poolId signer (s : State World) e :
  transactions s <> [] ->
  result (enrich ext config s) = inr tt ->
  Bundle_new ext (map (heap (final (enrich ext config s))) (transactions s))
    (maxTransactions config) = None ->
  fst (getLatestBlockhash ext (world s)) = inl e ->
  let o := sendBundle ext config poolId signer s in
  result o = inl (Thrown e) /\
  trace o = [EvGetLatestBlockhash (inl e)] /\
  relay_calls (trace o) = [] /\
  transactions (final o) = transactions s /\
  (compile_contract ext ->
   forall r,
     ixs (final o) r
     = prepended config (count_occ Nat.eq_dec (transactions s) r)
         ++ ixs s r).
Proof.
  intros Hne Hl HB Hb o.
  destruct (proj2 (sendBundle_early_failure poolId signer s Hne Hl) e HB Hb)
    as (Hr & Ht & Hf).
  fold o in Hr, Ht, Hf. rewrite Hf, Ht.
  repeat split; auto.
  intros Hc r. apply (enrich_ok ext config s Hc Hl r).
Qed.

(** ** What the relay is handed *)

(** X4. With a compiler that keeps its contract, the transaction a
    returning [sendBundle] hands to the relay is the first buffered one as
    the loop left it: the compute-budget pairs are in front of its
    instructions, its signatures are the former ones, and its block hash is
    still the former one, not the hash just fetched, which goes to the
    relay as a separate argument. *)
Theorem relay_receives_enriched_transaction
    poolId signer (s : State World) r0 rest u :
  compile_contract ext ->
  transactions s = r0 :: rest ->
  result (sendBundle ext config poolId signer s) = inr u ->
  exists b tx,
    fst (getLatestBlockhash ext (world s)) = inr b /\
    fst (jito_sendBundle ext false (blockhash b) (Some tx) poolId signer
           (snd (getLatestBlockhash ext (world s)))) = inr u /\
    compiledInstructions (message tx)
      = prepended config (S (count_occ Nat.eq_dec rest r0)) ++ ixs s r0 /\
    recentBlockhash (message tx) = recentBlockhash (message (heap s r0)) /\
    signatures tx = signatures (heap s r0).
Proof.
  intros Hc E Hu.
  assert (Hne : transactions s <> []) by congruence.
  destruct (sendBundle_cases ext config poolId signer s Hne)
    as [_ [(e & _ & Hr & _) | [(_ & e & _ & Hr & _)
       | [(_ & e & _ & Hr & _) | [(_ & b & e & _ & _ & Hr & _)
       | (Hl & b & u' & Hb & Ha & Hr & _)]]]]]; try congruence.
  assert (u' = u) by congruence. subst u'.
  unfold relay_answer in Ha. rewrite E in Ha. cbn [nth_error option_map] in Ha.
  exists b, (heap (final (enrich ext config s)) r0).
  destruct (enrich_ok ext config s Hc Hl r0) as (H1 & H2 & _).
  destruct (enrich_frame ext config s) as (_ & _ & F3).
  rewrite E in H1. cbn [count_occ] in H1.
  destruct (Nat.eq_dec r0 r0) as [_|Hn]; [|congruence].
  repeat split; auto.
Qed.

(** ** The store and the network *)

(** X5. No operation writes to a transaction object that is not in the
    array when the operation starts; [addTransaction], [getSize] and
    [clear] write to no transaction object at all, leave the world alone
    and make no network call. *)
Theorem unbuffered_objects_untouched op (s : State World) :
  (forall r, ~ In r (transactions s) ->
             heap (final (exec ext config op s)) r = heap s r) /\
  (count_submits [op] = 0%nat ->
   heap (final (exec ext config op s)) = heap s /\
   world (final (exec ext config op s)) = world s /\
   trace (exec ext config op s) = []).
Proof.
  destruct op as [tx | poolId signer | | ].
  - destruct (exec_Append tx s) as (H1 & H2 & H3 & _).
    split; [intros r _; now rewrite H1 | auto].
  - split; [|discriminate].
    intros r Hr. destruct (exec_Submit ext config poolId signer s) as [-> _].
    destruct (transactions s) as [|r0 rest] eqn:E.
    + now rewrite sendBundle_empty.
    + assert (Hne : transactions s <> []) by congruence.
      destruct (sendBundle_cases ext config poolId signer s Hne) as [Hh _].
      rewrite Hh.
      destruct (enrich_unfold ext config s) as (_ & -> & _).
      apply forEach_frame. now rewrite E.
  - split; [intros r _; reflexivity | intros _; cbn; auto].
  - split; [intros r _; reflexivity | intros _; cbn; auto].
Qed.

Lemma exec_trace_bound op (s : State World) :
  (List.length (trace (exec ext config op s))
   <= 2 * count_submits [op])%nat /\
  (List.length (relay_calls (trace (exec ext config op s)))
   <= count_submits [op])%nat.
Proof.
  destruct op as [tx | poolId signer | | ].
  - destruct (exec_Append tx s) as (_ & _ & -> & _). cbn. lia.
  - destruct (exec_Submit ext config poolId signer s) as [_ ->].
    destruct (sendBundle_trace_bound poolId signer s).
    cbn [count_submits]. lia.
  - cbn. lia.
  - cbn. lia.
Qed.

Lemma count_submits_cons op ops :
  count_submits (op :: ops) = (count_submits [op] + count_submits ops)%nat.
Proof. destruct op; cbn; lia. Qed.

Lemma relay_calls_app evs evs' :
  relay_calls (evs ++ evs') = relay_calls evs ++ relay_calls evs'.
Proof. unfold relay_calls. apply filter_app. Qed.

(** X6. Whatever the collaborators answer, a sequence of operations makes
    at most two network calls for each [sendBundle] in it, and at most one
    of them is a relay call: nothing is retried. *)
Theorem network_calls_bounded ops : forall s : State World,
  (List.length (snd (run ext config ops s)) <= 2 * count_submits ops)%nat /\
  (List.length (relay_calls (snd (run ext config ops s)))
   <= count_submits ops)%nat.
Proof.
  induction ops as [|op ops IH]; intro s.
  - cbn. lia.
  - rewrite count_submits_cons. cbn [run].
    destruct (exec_trace_bound op s) as [B1 B2].
    destruct (IH (final (exec ext config op s))) as [I1 I2].
    destruct (run ext config ops (final (exec ext config op s)))
      as [[rs s'] evs]. cbn [snd] in *.
    rewrite relay_calls_app, !length_app. lia.
Qed.

Lemma exec_buffer_origin op (s : State World) r :
  In r (transactions (final (exec ext config op s))) ->
  In r (transactions s) \/ op = Append r.
Proof.
  destruct op as [tx | poolId signer | | ].
  - destruct (exec_Append tx s) as (_ & _ & _ & [-> | ->]); [auto|].
    rewrite in_app_iff. cbn. intros [H | [-> | []]]; auto.
  - destruct (exec_Submit ext config poolId signer s) as [-> _].
    destruct (sendBundle_buffer ext config poolId signer s) as [-> | ->];
      [auto | intros []].
  - cbn. auto.
  - cbn. intros [].
Qed.

(** X7. The array only ever holds references a client appended: a
    reference buffered after a sequence of operations was buffered before
    it or is the argument of an [addTransaction] of the sequence. *)
Theorem buffer_holds_only_appended ops : forall (s : State World) r,
  In r (transactions (snd (fst (run ext config ops s)))) ->
  In r (transactions s) \/ In (Append r) ops.
Proof.
  induction ops as [|op ops IH]; intros s r; cbn [run].
  - cbn. auto.
  - specialize (IH (final (exec ext config op s)) r).
    destruct (run ext config ops (final (exec ext config op s)))
      as [[rs s'] evs]. cbn [fst snd] in *.
    intro H. destruct (IH H) as [H1 | H1]; [|right; now right].
    destruct (exec_buffer_origin op s r H1) as [H2 | ->]; [now left|].
    right. now left.
Qed.

(** ** Capacity at the edges *)

Lemma exec_Append_room tx (s : State World) :
  Z.of_nat (List.length (transactions s)) < maxTransactions config ->
  exec ext config (Append tx) s
  = {| result := inr VUndefined;
       final := {| heap := heap s; transactions := transactions s ++ [tx];
                   world := world s |};
       trace := [] |}.
Proof.
  intro H. unfold exec, bind. now rewrite addTransaction_room by assumption.
Qed.

Lemma exec_Append_full tx (s : State World) :
  Z.of_nat (List.length (transactions s)) >= maxTransactions config ->
  exec ext config (Append tx) s
  = {| result := inl (BundleCannotExceed (maxTransactions config));
       final := s; trace := [] |}.
Proof.
  intro H. unfold exec, bind. now rewrite addTransaction_full by assumption.
Qed.

Lemma append_results_full n :
  append_results config 0 (S n)
  = inl (BundleCannotExceed (maxTransactions config))
      :: append_results config 0 n.
Proof.
  unfold append_results. cbn [Nat.min repeat app].
  now rewrite !Nat.sub_0_r.
Qed.

Lemma append_results_room room n :
  append_results config (S room) (S n)
  = inr VUndefined :: append_results config room n.
Proof. reflexivity. Qed.

(** X8. A sequence of [addTransaction] calls of any length fills the room
    that is left and no more: the first calls go through, in order, at the
    tail of the array, every later one throws [BundleCannotExceed], and the
    references it was given are dropped.  No transaction object or network
    is touched. *)
Theorem appends_beyond_capacity txs : forall s : State World,
  let room :=
    Z.to_nat (maxTransactions config
              - Z.of_nat (List.length (transactions s))) in
  let r := run ext config (map Append txs) s in
  fst (fst r) = append_results config room (List.length txs) /\
  transactions (snd (fst r)) = transactions s ++ firstn room txs /\
  heap (snd (fst r)) = heap s /\
  world (snd (fst r)) = world s /\
  snd r = [].
Proof.
  induction txs as [|tx txs IH]; intro s; cbn zeta.
  - cbn [map run fst snd List.length]. rewrite firstn_nil, app_nil_r.
    unfold append_results. rewrite Nat.min_0_r. cbn. auto.
  - cbn [map run List.length].
    destruct (Z_lt_ge_dec (Z.of_nat (List.length (transactions s)))
                (maxTransactions config)) as [Hlt|Hge].
    + rewrite exec_Append_room by assumption.
      cbn [result final trace app].
      specialize (IH {| heap := heap s;
                        transactions := transactions s ++ [tx];
                        world := world s |}).
      cbn zeta in IH. cbn [transactions heap world] in IH.
      rewrite length_app in IH. cbn [List.length] in IH.
      replace (Z.to_nat (maxTransactions config
                         - Z.of_nat (List.length (transactions s))))
        with (S (Z.to_nat (maxTransactions config
                           - Z.of_nat (List.length (transactions s) + 1))))
        by lia.
      destruct (run ext config (map Append txs) _) as [[rs s'] evs].
      cbn [fst snd] in *.
      destruct IH as (I1 & I2 & I3 & I4 & I5).
      rewrite append_results_room, I1, I2, I3, I4, I5.
      cbn [firstn]. rewrite <- app_assoc. cbn. auto.
    + rewrite exec_Append_full by assumption.
      cbn [result final trace app].
      specialize (IH s). cbn zeta in IH.
      replace (Z.to_nat (maxTransactions config
                         - Z.of_nat (List.length (transactions s))))
        with 0%nat in * by lia.
      destruct (run ext config (map Append txs) s) as [[rs s'] evs].
      cbn [fst snd] in *.
      destruct IH as (I1 & I2 & I3 & I4 & I5).
      rewrite append_results_full, I1, I2, I3, I4, I5.
      cbn [firstn]. auto.
Qed.

(** X9. With a capacity of zero or less an accumulator is inert: from the
    constructor, every [addTransaction] throws [BundleCannotExceed], every
    [sendBundle] throws [NoTransactionsToBundle], [getSize] returns 0, the
    state never changes and no network call is ever made. *)
Theorem no_capacity_is_inert h w ops :
  maxTransactions config <= 0 ->
  run ext config ops (new_PumpSwapBundler h w)
  = (map (fun op =>
            match op with
            | Append _ => inl (BundleCannotExceed (maxTransactions config))
            | Submit _ _ => inl NoTransactionsToBundle
            | Size => inr (VNumber 0)
            | Reset => inr VUndefined
            end) ops,
     new_PumpSwapBundler h w, []).
Proof.
  intro H0. induction ops as [|op ops IH]; cbn [run map]; [reflexivity|].
  assert (E : exec ext config op (new_PumpSwapBundler h w)
              = {| result :=
                     match op with
                     | Append _ =>
                         inl (BundleCannotExceed (maxTransactions config))
                     | Submit _ _ => inl NoTransactionsToBundle
                     | Size => inr (VNumber 0)
                     | Reset => inr VUndefined
                     end;
                   final := new_PumpSwapBundler h w; trace := [] |}).
  { destruct op as [tx | poolId signer | | ]; try reflexivity.
    unfold exec, bind. rewrite addTransaction_full; [reflexivity|].
    cbn. lia. }
  rewrite E. cbn [result final trace]. rewrite IH. reflexivity.
Qed.

(** ** After a submission *)

(** X10. A bundle is sent once: right after a [sendBundle] that returned,
    another [sendBundle] throws [NoTransactionsToBundle] without a network
    call, and an [addTransaction], when the capacity is positive, starts a
    new array that holds the new reference only. *)
Theorem submit_then_submit_again
    poolId signer poolId' signer' (s : State World) u tx :
  result (sendBundle ext config poolId signer s) = inr u ->
  let s1 := final (sendBundle ext config poolId signer s) in
  sendBundle ext config poolId' signer' s1
  = {| result := inl NoTransactionsToBundle; final := s1; trace := [] |} /\
  (0 < maxTransactions config ->
   result (addTransaction config tx s1) = inr tt /\
   transactions (final (addTransaction config tx s1)) = [tx]).
Proof.
  intros Hu s1.
  assert (E : transactions s1 = []).
  { destruct (transactions s) as [|r0 rest] eqn:Etx.
    - rewrite sendBundle_empty in Hu by assumption. discriminate.
    - assert (Hne : transactions s <> []) by congruence.
      destruct (sendBundle_cases ext config poolId signer s Hne)
        as [_ [(e & _ & Hr & _) | [(_ & e & _ & Hr & _)
           | [(_ & e & _ & Hr & _) | [(_ & b & e & _ & _ & Hr & _)
           | (_ & b & u' & _ & _ & _ & _ & Hf)]]]]]; try congruence.
      exact Hf. }
  split; [now apply sendBundle_empty|].
  intro Hpos. rewrite addTransaction_room by (rewrite E; cbn; lia).
  cbn [result final transactions]. now rewrite E.
Qed.

(** X11. [clear] is not a rollback.  It never throws, makes no network
    call, empties the array and leaves the world and every transaction
    object as they were, and a second [clear] changes nothing.  So after a
    [sendBundle] that the relay refused, [clear] leaves the formerly
    buffered transactions with the compute-budget pairs in front of their
    instructions. *)
Theorem clear_is_not_a_rollback poolId signer (s : State World) :
  (result (clear s) = inr tt /\
   trace (clear s) = [] /\
   final (clear s)
   = {| heap := heap s; transactions := []; world := world s |} /\
   clear (final (clear s)) = clear s) /\
  (compile_contract ext ->
   relay_failure (sendBundle ext config poolId signer s) <> None ->
   let s1 := final (clear (final (sendBundle ext config poolId signer s))) in
   transactions s1 = [] /\
   forall r,
     ixs s1 r
     = prepended config (count_occ Nat.eq_dec (transactions s) r)
         ++ ixs s r).
Proof.
  split; [repeat split; reflexivity|].
  intros Hc Hf s1. split; [reflexivity|].
  intro r. exact (proj2 (rejected_submit ext config poolId signer s Hc Hf) r).
Qed.

End Further.

(** ** The further properties on the test doubles *)

Lemma submit_stops_at_first_compile_failure_witness :
  transactions (Faulty.st [0; 1; 2]%nat) = [0%nat] ++ 1%nat :: [2%nat] /\
  result (sendBundle Mock.relay_up Mock.config "pool" Mock.signer
            (Faulty.st [0; 1; 2]%nat))
  = inl (Thrown "payer is undefined") /\
  ixs (final (sendBundle Mock.relay_up Mock.config "pool" Mock.signer
                (Faulty.st [0; 1; 2]%nat))) 0%nat
  = [SetComputeUnitLimit 300000; SetComputeUnitPrice 696969] /\
  heap (final (sendBundle Mock.relay_up Mock.config "pool" Mock.signer
                 (Faulty.st [0; 1; 2]%nat))) 2%nat
  = Mock.tx0.
Proof.
  split; [reflexivity|].
  destruct (submit_stops_at_first_compile_failure Mock.relay_up Mock.config
              "pool" Mock.signer (Faulty.st [0; 1; 2]%nat)
              [0%nat] 1%nat [2%nat] (Thrown "payer is undefined")
              eq_refl eq_refl eq_refl)
    as (H1 & _ & _ & _ & _ & H6 & H7).
  split; [exact H1|]. split.
  - exact (H7 mock_compile_contract_up 0%nat).
  - apply (H6 2%nat). cbn. intros [H|[]]. discriminate.
Defined.

Lemma bundle_constructor_failure_witness :
  transactions (Mock.st [0; 1]%nat) <> [] /\
  result (sendBundle Faulty.bundle_rejects Mock.config "pool" Mock.signer
            (Mock.st [0; 1]%nat))
  = inl (Thrown "bundle refused") /\
  trace (sendBundle Faulty.bundle_rejects Mock.config "pool" Mock.signer
           (Mock.st [0; 1]%nat)) = [].
Proof.
  assert (Hne : transactions (Mock.st [0; 1]%nat) <> []) by discriminate.
  split; [exact Hne|].
  destruct (bundle_constructor_failure Faulty.bundle_rejects Mock.config
              "pool" Mock.signer (Mock.st [0; 1]%nat) "bundle refused"
              Hne eq_refl eq_refl)
    as (H1 & H2 & _).
  exact (conj H1 H2).
Defined.

Lemma blockhash_failure_witness :
  transactions (Mock.st [0; 1]%nat) <> [] /\
  result (sendBundle Faulty.rpc_down Mock.config "pool" Mock.signer
            (Mock.st [0; 1]%nat))
  = inl (Thrown "rpc unreachable") /\
  relay_calls (trace (sendBundle Faulty.rpc_down Mock.config "pool"
                        Mock.signer (Mock.st [0; 1]%nat))) = [].
Proof.
  assert (Hne : transactions (Mock.st [0; 1]%nat) <> []) by discriminate.
  split; [exact Hne|].
  destruct (blockhash_failure Faulty.rpc_down Mock.config "pool" Mock.signer
              (Mock.st [0; 1]%nat) "rpc unreachable"
              Hne eq_refl eq_refl eq_refl)
    as (H1 & _ & H3 & _).
  exact (conj H1 H3).
Defined.

Lemma relay_receives_enriched_transaction_witness :
  compile_contract Mock.relay_up /\
  result (Mock.accepted [0; 1]%nat) = inr "bundle-uuid" /\
  exists b tx,
    fst (getLatestBlockhash Mock.relay_up (world (Mock.st [0; 1]%nat)))
    = inr b /\
    fst (jito_sendBundle Mock.relay_up false (blockhash b) (Some tx) "pool"
           Mock.signer
           (snd (getLatestBlockhash Mock.relay_up
                   (world (Mock.st [0; 1]%nat)))))
    = inr "bundle-uuid" /\
    compiledInstructions (message tx)
    = prepended Mock.config 1 ++ ixs (Mock.st [0; 1]%nat) 0%nat /\
    recentBlockhash (message tx) = "old-hash" /\
    signatures tx = signatures Mock.tx0.
Proof.
  split; [exact mock_compile_contract_up|]. split; [reflexivity|].
  exact (relay_receives_enriched_transaction Mock.relay_up Mock.config
           "pool" Mock.signer (Mock.st [0; 1]%nat) 0%nat [1%nat]
           "bundle-uuid" mock_compile_contract_up eq_refl eq_refl).
Defined.

Lemma unbuffered_objects_untouched_witness :
  ~ In 5%nat (transactions (Mock.st [0%nat])) /\
  heap (final (exec Mock.relay_up Mock.config (Submit "pool" Mock.signer)
                 (Mock.st [0%nat]))) 5%nat
  = Mock.tx0 /\
  count_submits [Append 3%nat] = 0%nat /\
  trace (exec Mock.relay_up Mock.config (Append 3%nat) (Mock.st [0%nat]))
  = [].
Proof.
  assert (Hn : ~ In 5%nat (transactions (Mock.st [0%nat]))).
  { cbn. intros [H|[]]. discriminate. }
  split; [exact Hn|]. split.
  - exact (proj1 (unbuffered_objects_untouched Mock.relay_up Mock.config
                    (Submit "pool" Mock.signer) (Mock.st [0%nat]))
             5%nat Hn).
  - split; [reflexivity|].
    exact (proj2 (proj2 (proj2 (unbuffered_objects_untouched Mock.relay_up
                                  Mock.config (Append 3%nat)
                                  (Mock.st [0%nat])) eq_refl))).
Defined.

Lemma buffer_holds_only_appended_witness :
  In 4%nat
    (transactions
       (snd (fst (run Mock.relay_up Mock.config [Append 3; Append 4]%nat
                    (Mock.st [0%nat]))))) /\
  (In 4%nat (transactions (Mock.st [0%nat])) \/
   In (Append 4%nat) [Append 3; Append 4]%nat).
Proof.
  assert (H : In 4%nat
                (transactions
                   (snd (fst (run Mock.relay_up Mock.config
                                [Append 3; Append 4]%nat
                                (Mock.st [0%nat])))))).
  { cbn. auto. }
  split; [exact H|].
  exact (buffer_holds_only_appended Mock.relay_up Mock.config
           [Append 3; Append 4]%nat (Mock.st [0%nat]) 4%nat H).
Defined.

Lemma no_capacity_is_inert_witness :
  maxTransactions Faulty.no_room <= 0 /\
  run Mock.relay_up Faulty.no_room
    [Append 0%nat; Submit "pool" Mock.signer; Size; Reset]
    (new_PumpSwapBundler Mock.heap0 0%nat)
  = ([inl (BundleCannotExceed 0); inl NoTransactionsToBundle;
      inr (VNumber 0); inr VUndefined],
     new_PumpSwapBundler Mock.heap0 0%nat, []).
Proof.
  assert (H : maxTransactions Faulty.no_room <= 0) by (cbn; lia).
  split; [exact H|].
  exact (no_capacity_is_inert Mock.relay_up Faulty.no_room Mock.heap0 0%nat
           [Append 0%nat; Submit "pool" Mock.signer; Size; Reset] H).
Defined.

Lemma submit_then_submit_again_witness :
  result (Mock.accepted [0; 1]%nat) = inr "bundle-uuid" /\
  result (sendBundle Mock.relay_up Mock.config "other-pool" Mock.signer
            (final (Mock.accepted [0; 1]%nat)))
  = inl NoTransactionsToBundle /\
  0 < maxTransactions Mock.config /\
  transactions (final (addTransaction Mock.config 7%nat
                         (final (Mock.accepted [0; 1]%nat)))) = [7%nat].
Proof.
  assert (Hpos : 0 < maxTransactions Mock.config) by (cbn; lia).
  split; [reflexivity|].
  destruct (submit_then_submit_again Mock.relay_up Mock.config "pool"
              Mock.signer "other-pool" Mock.signer (Mock.st [0; 1]%nat)
              "bundle-uuid" 7%nat eq_refl)
    as (H1 & H2).
  split; [exact (f_equal result H1)|]. split; [exact Hpos|].
  exact (proj2 (H2 Hpos)).
Defined.

Lemma clear_is_not_a_rollback_witness :
  compile_contract Mock.relay_down /\
  relay_failure (Mock.refused [0; 1]%nat) <> None /\
  transactions (final (clear (final (Mock.refused [0; 1]%nat)))) = [] /\
  ixs (final (clear (final (Mock.refused [0; 1]%nat)))) 1%nat
  = [SetComputeUnitLimit 300000; SetComputeUnitPrice 696969].
Proof.
  assert (Hf : relay_failure (Mock.refused [0; 1]%nat) <> None)
    by discriminate.
  split; [exact mock_compile_contract_down|]. split; [exact Hf|].
  destruct (proj2 (clear_is_not_a_rollback Mock.relay_down Mock.config
                     "pool" Mock.signer (Mock.st [0; 1]%nat))
              mock_compile_contract_down Hf)
    as (H1 & H2).
  split; [exact H1 | exact (H2 1%nat)].
Defined.
